(** * A media server with HTTP Live Streaming: embedding and properties

    Shallow embedding of the Go packages [server] (response envelopes),
    [hls] (the call of the external segmenter) and [http] (the handlers,
    the routes and the start and shutdown of the server).

    - A Go [error] is a value of [error]; a nil error or nil pointer is
      [None].
    - The filesystem is a finite map from path strings to nodes; every
      operation on it also leaves an event in a trace, so that "the
      segmenter was run" or "a directory was made" can be counted.
    - An [http.ResponseWriter] is a record of the header map, the status
      line (once written) and the chunks written to the body.
    - The external process and the services of the music library are
      parameters. *)

From Stdlib Require Import ZArith Lia Ascii.
From stdpp Require Import base option list strings gmap fin_maps.

Local Open Scope Z_scope.

(** ** Go values *)

(** Kinds of failure of a system call that the code can tell apart. *)
Inductive Errno := ENOENT | EEXIST | ENOTDIR | EACCES.

(** A Go [error]: a path error of package [os], the failure of an external
    command, or any other error identified by its text. *)
Inductive error :=
| PathError (op path : string) (errno : Errno)
| ExitError (msg : string)
| ErrorString (msg : string).

Definition Errno_Error (e : Errno) : string :=
  match e with
  | ENOENT => "no such file or directory"
  | EEXIST => "file exists"
  | ENOTDIR => "not a directory"
  | EACCES => "permission denied"
  end.

(** [err.Error()] *)
Definition Error_text (e : error) : string :=
  match e with
  | PathError op path errno => op +:+ " " +:+ path +:+ ": " +:+ Errno_Error errno
  | ExitError msg => msg
  | ErrorString msg => msg
  end.

Definition byte_of_Z (z : Z) : Ascii.ascii := Ascii.ascii_of_N (Z.to_N z).

(** The conversion [string(code)] of an integer: the UTF-8 encoding of the
    code point, U+FFFD for an integer that is no valid code point. *)
Definition string_of_rune (r : Z) : string :=
  if (r <? 0) || (1114111 <? r) || ((55296 <=? r) && (r <=? 57343)) then
    String (byte_of_Z 239) (String (byte_of_Z 191) (String (byte_of_Z 189) ""))
  else if r <? 128 then
    String (byte_of_Z r) ""
  else if r <? 2048 then
    String (byte_of_Z (Z.lor 192 (Z.shiftr r 6)))
      (String (byte_of_Z (Z.lor 128 (Z.land r 63))) "")
  else if r <? 65536 then
    String (byte_of_Z (Z.lor 224 (Z.shiftr r 12)))
      (String (byte_of_Z (Z.lor 128 (Z.land (Z.shiftr r 6) 63)))
         (String (byte_of_Z (Z.lor 128 (Z.land r 63))) ""))
  else
    String (byte_of_Z (Z.lor 240 (Z.shiftr r 18)))
      (String (byte_of_Z (Z.lor 128 (Z.land (Z.shiftr r 12) 63)))
         (String (byte_of_Z (Z.lor 128 (Z.land (Z.shiftr r 6) 63)))
            (String (byte_of_Z (Z.lor 128 (Z.land r 63))) ""))).

(** A Go map from strings to strings read at a key: the empty string when
    the key is absent. *)
Definition map_get (m : gmap string string) (k : string) : string :=
  default "" (m !! k).

(** ** Package [library] (the data-access layer, an external package)

    Only what the handlers touch is modelled: a song has the path of its
    media file; albums, artists and genres are passed through. *)
Module library.

Record SongAttributes := { FilePath : string }.
Record Song := { SongID : string; Attributes : SongAttributes }.
Record Album := { AlbumID : string }.
Record Artist := { ArtistID : string }.
Record Genre := { GenreID : string }.

(** The service interfaces; [song_by_id] is the method [Song],
    [songs] the method [Songs], and so on (the type of songs has the
    name [Song] here). A pointer result is an [option] (nil is [None]);
    a slice result is an [option] of a list (the nil slice is [None]). *)
Class SongService := {
  song_by_id : string -> option Song * option error;
  songs : gmap string string -> option (list (option Song)) * option error }.
Class AlbumService := {
  album_by_id : string -> option Album * option error;
  albums : gmap string string -> option (list (option Album)) * option error }.
Class ArtistService := {
  artist_by_id : string -> option Artist * option error;
  artists : gmap string string -> option (list (option Artist)) * option error }.
Class GenreService := {
  genres : option (list (option Genre)) * option error }.

End library.

(** ** Package [server]: the response envelopes *)
Module server.

(** [Error] provides custom error information. *)
Record Error := {
  Status : string; Code : string; Title : string; Detail : string }.

(** [ErrorResponse]: the problems encountered while performing an
    operation. A nil slice is the empty list. *)
Record ErrorResponse := { Errors : list Error }.

Record SongResponse := { SongData : option (list (option library.Song)) }.
Record ArtistResponse := { ArtistData : option (list (option library.Artist)) }.
Record AlbumResponse := { AlbumData : option (list (option library.Album)) }.
Record GenreResponse := { GenreData : option (list (option library.Genre)) }.

(** [NewInternalServerError] creates an error with 500 HTTP status code. *)
Definition NewInternalServerError : Error :=
  {| Status := "500";
     Code := "";
     Title := "Internal Server Error";
     Detail := "There is an error processing the request." |}.

(** [NewStatusNotFoundError] creates an error with 404 HTTP status code. *)
Definition NewStatusNotFoundError : Error :=
  {| Status := "404";
     Code := "";
     Title := "Not Found";
     Detail := "The requested resource does not exist." |}.

End server.

(** ** The response writer of [net/http] *)

(** What [json.NewEncoder(w).Encode] is given. *)
Inductive JSONValue :=
| VErrors (er : server.ErrorResponse)
| VSongs (r : server.SongResponse)
| VArtists (r : server.ArtistResponse)
| VAlbums (r : server.AlbumResponse)
| VGenres (r : server.GenreResponse).

(** A chunk written to the body of a response. *)
Inductive Body :=
| BJSON (v : JSONValue)
| BFile (content : string)
| BDirList (dir : string)
| BText (msg : string).

(** [status] is the status line sent, [None] while none has been;
    [broken] says that writing to the connection fails. *)
Record ResponseWriter := {
  Header : gmap string string;
  status : option Z;
  body : list Body;
  broken : bool }.

Definition StatusOK : Z := 200.
Definition StatusBadRequest : Z := 400.
Definition StatusNotFound : Z := 404.
Definition StatusInternalServerError : Z := 500.

(** A writer on which nothing has been set or written. *)
Definition newResponseWriter (brk : bool) : ResponseWriter :=
  {| Header := ∅; status := None; body := []; broken := brk |}.

(** [w.Header().Set(k, v)] *)
Definition Header_Set (k v : string) (w : ResponseWriter) : ResponseWriter :=
  {| Header := <[k := v]> (Header w); status := status w;
     body := body w; broken := broken w |}.

(** [w.Header().Del(k)] *)
Definition Header_Del (k : string) (w : ResponseWriter) : ResponseWriter :=
  {| Header := delete k (Header w); status := status w;
     body := body w; broken := broken w |}.

(** [w.WriteHeader(code)]: the first status line is the one sent, a later
    call changes nothing. *)
Definition WriteHeader (code : Z) (w : ResponseWriter) : ResponseWriter :=
  match status w with
  | Some _ => w
  | None => {| Header := Header w; status := Some code;
               body := body w; broken := broken w |}
  end.

(** [w.Write(chunk)]: sends status 200 first when no status line has been
    sent, and fails on a broken connection. *)
Definition Write (chunk : Body) (w : ResponseWriter) : ResponseWriter * option error :=
  let w := WriteHeader StatusOK w in
  if broken w then (w, Some (ErrorString "write: broken pipe"))
  else ({| Header := Header w; status := status w;
           body := body w ++ [chunk]; broken := broken w |}, None).

(** [json.NewEncoder(w).Encode(v)]; marshalling the envelopes does not
    fail, writing may. *)
Definition json_Encode (v : JSONValue) (w : ResponseWriter) : ResponseWriter * option error :=
  Write (BJSON v) w.

(** [http.Error(w, msg, code)] *)
Definition http_Error (msg : string) (code : Z) (w : ResponseWriter) : ResponseWriter :=
  let w := Header_Del "Content-Length" w in
  let w := Header_Set "Content-Type" "text/plain; charset=utf-8" w in
  let w := Header_Set "X-Content-Type-Options" "nosniff" w in
  let w := WriteHeader code w in
  fst (Write (BText msg) w).

(** ** The filesystem and the trace of effects *)

Inductive Node := File (content : string) | Dir.

(** What the program did to its environment, in order. [EvMkdir] and
    [EvExec] are recorded whether or not the call succeeds. *)
Inductive Event :=
| EvStat (name : string)
| EvMkdir (name : string) (perm : Z)
| EvExec (cmd : string) (args : list string)
| EvOpen (name : string)
| EvTempDir (dir pattern : string)
| EvRemoveAll (name : string)
| EvLog (line : string)
| EvExit (code : Z)
| EvShutdown
| EvClose (chan : string).

Record World := { fs : gmap string Node; trace : list Event }.

Definition emit (e : Event) (σ : World) : World :=
  {| fs := fs σ; trace := trace σ ++ [e] |}.

Definition set_fs (m : gmap string Node) (σ : World) : World :=
  {| fs := m; trace := trace σ |}.

(** [name] cut at its last slash: the directory part and the last element. *)
Fixpoint split_last_slash (name : string) : option (string * string) :=
  match name with
  | "" => None
  | String c rest =>
      match split_last_slash rest with
      | Some (d, b) => Some (String c d, b)
      | None => if Ascii.eqb c "/"%char then Some ("", rest) else None
      end
  end.

(** The node of the directory that holds [name]; the root and the working
    directory (for a name without slash) always exist. *)
Definition parent_node (m : gmap string Node) (name : string) : option Node :=
  match split_last_slash name with
  | Some ("", _) => Some Dir
  | Some (d, _) => m !! d
  | None => Some Dir
  end.

(** [os.Stat(name)] *)
Definition os_Stat (name : string) (σ : World) : World * (option Node * option error) :=
  let σ := emit (EvStat name) σ in
  match fs σ !! name with
  | Some n => (σ, (Some n, None))
  | None => (σ, (None, Some (PathError "stat" name ENOENT)))
  end.

(** [os.IsNotExist(err)] *)
Definition os_IsNotExist (err : option error) : bool :=
  match err with
  | Some (PathError _ _ ENOENT) => true
  | _ => false
  end.

(** [os.Mkdir(name, perm)] *)
Definition os_Mkdir (name : string) (perm : Z) (σ : World) : World * option error :=
  let σ := emit (EvMkdir name perm) σ in
  match fs σ !! name with
  | Some _ => (σ, Some (PathError "mkdir" name EEXIST))
  | None =>
      match parent_node (fs σ) name with
      | Some Dir => (set_fs (<[name := Dir]> (fs σ)) σ, None)
      | Some (File _) => (σ, Some (PathError "mkdir" name ENOTDIR))
      | None => (σ, Some (PathError "mkdir" name ENOENT))
      end
  end.

(** [h.Logger.Printf] with the line already formatted. *)
Definition Logger_Printf (line : string) (σ : World) : World :=
  emit (EvLog line) σ.

(** Whether [p] is a prefix of [s]. *)
Fixpoint has_prefix (p s : string) : bool :=
  match p, s with
  | "", _ => true
  | String a p', String b s' => Ascii.eqb a b && has_prefix p' s'
  | String _ _, "" => false
  end.

(** Removal of [name] and of everything beneath it, when nothing stands
    in the way. *)
Definition remove_tree (name : string) (m : gmap string Node) : gmap string Node :=
  filter (λ kv, ¬ (kv.1 = name ∨ has_prefix (name +:+ "/") kv.1 = true)) m.

(** ** The environment of the process

    What the operating system and the two opaque calls of [net/http]
    answer: the run of an external command, the removal of a tree, the
    making of a fresh temporary directory, the media type sniffed for a
    file, and the errors of [srv.Shutdown] and [srv.ListenAndServe]
    ([None] for the latter: it served until the shutdown and returned
    [http.ErrServerClosed]). *)
Class Env := {
  run_command : string -> list string -> gmap string Node -> gmap string Node * option error;
  remove_all : string -> gmap string Node -> gmap string Node * option error;
  make_temp_dir : string -> string -> gmap string Node -> string * gmap string Node * option error;
  sniff_type : string -> string -> string;
  Shutdown_err : option error;
  ListenAndServe_err : option error }.

(** ** Route patterns

    The regular expressions of the route templates, over the bytes of the
    path, decided by derivatives. *)
Inductive regex :=
| Nul                                   (* matches nothing *)
| Eps                                   (* matches the empty string *)
| Byte (lo hi : N)                      (* one byte between lo and hi *)
| Cat (r1 r2 : regex)
| Alt (r1 r2 : regex)
| Star (r : regex).

(** [r+] *)
Definition Plus (r : regex) : regex := Cat r (Star r).

(** A literal text. *)
Fixpoint Lit (s : string) : regex :=
  match s with
  | "" => Eps
  | String c rest => Cat (Byte (N_of_ascii c) (N_of_ascii c)) (Lit rest)
  end.

(** [[0-9]] *)
Definition Digit : regex := Byte 48 57.

(** The dot of a pattern: any character other than the newline. A
    character is one byte below 128, a well-formed UTF-8 sequence of two
    to four bytes, or one byte that begins no such sequence. *)
Definition AnyChar : regex :=
  let cont := Byte 128 191 in
  Alt (Byte 0 9)
 (Alt (Byte 11 255)
 (Alt (Cat (Byte 194 223) cont)
 (Alt (Cat (Byte 224 224) (Cat (Byte 160 191) cont))
 (Alt (Cat (Byte 225 236) (Cat cont cont))
 (Alt (Cat (Byte 237 237) (Cat (Byte 128 159) cont))
 (Alt (Cat (Byte 238 239) (Cat cont cont))
 (Alt (Cat (Byte 240 240) (Cat (Byte 144 191) (Cat cont cont)))
 (Alt (Cat (Byte 241 243) (Cat cont (Cat cont cont)))
      (Cat (Byte 244 244) (Cat (Byte 128 143) (Cat cont cont))))))))))).

Fixpoint nullable (r : regex) : bool :=
  match r with
  | Nul => false
  | Eps => true
  | Byte _ _ => false
  | Cat r1 r2 => nullable r1 && nullable r2
  | Alt r1 r2 => nullable r1 || nullable r2
  | Star _ => true
  end.

Fixpoint deriv (c : ascii) (r : regex) : regex :=
  match r with
  | Nul => Nul
  | Eps => Nul
  | Byte lo hi =>
      if (lo <=? N_of_ascii c)%N && (N_of_ascii c <=? hi)%N then Eps else Nul
  | Cat r1 r2 =>
      if nullable r1 then Alt (Cat (deriv c r1) r2) (deriv c r2)
      else Cat (deriv c r1) r2
  | Alt r1 r2 => Alt (deriv c r1) (deriv c r2)
  | Star r1 => Cat (deriv c r1) (Star r1)
  end.

(** Whether the whole of [s] matches [r]. *)
Fixpoint re_match (r : regex) (s : string) : bool :=
  match s with
  | "" => nullable r
  | String c rest => re_match (deriv c r) rest
  end.

(** [[0-9]+], the pattern of the variable [id] in every route. *)
Definition id_pattern : regex := Plus Digit.

(** [fileSequence[0-9]+.aac], the pattern of the variable [seg]. *)
Definition seg_pattern : regex :=
  Cat (Lit "fileSequence") (Cat (Plus Digit) (Cat AnyChar (Lit "aac"))).

(** A route template is a sequence of literal texts and of variables with
    their patterns. *)
Inductive TplPart :=
| TLit (s : string)
| TVar (name : string) (pattern : regex).

(** The ways to cut [s] in two, the longest first part first. *)
Fixpoint splits (s : string) : list (string * string) :=
  match s with
  | "" => [("", "")]
  | String c rest =>
      map (λ p, (String c p.1, p.2)) (splits rest) ++ [("", s)]
  end.

(** [s] without the prefix [p], when it has it. *)
Fixpoint strip_prefix (p s : string) : option string :=
  match p, s with
  | "", _ => Some s
  | String a p', String b s' =>
      if Ascii.eqb a b then strip_prefix p' s' else None
  | String _ _, "" => None
  end.

(** The first element of [l] on which [f] answers. *)
Fixpoint first_some {A B} (f : A -> option B) (l : list A) : option B :=
  match l with
  | [] => None
  | x :: l' => match f x with Some y => Some y | None => first_some f l' end
  end.

(** The match of a path against the template of a route, anchored at both
    ends unless [prefix] (a route made with [PathPrefix]); it gives the
    values of the variables. A variable takes the longest text that lets
    the rest of the path match. *)
Fixpoint match_template (prefix : bool) (tpl : list TplPart) (path : string)
    (vars : gmap string string) : option (gmap string string) :=
  match tpl with
  | [] => if prefix then Some vars
          else match path with "" => Some vars | _ => None end
  | TLit l :: tpl' =>
      match strip_prefix l path with
      | Some rest => match_template prefix tpl' rest vars
      | None => None
      end
  | TVar name pattern :: tpl' =>
      first_some
        (λ p : string * string,
           if re_match pattern p.1
           then match_template prefix tpl' p.2 (<[name := p.1]> vars)
           else None)
        (splits path)
  end.

(** The handler functions that routes name. *)
Inductive HandlerFunc :=
| HGetAlbums | HGetAlbumByID | HGetGenres | HGetArtists | HGetArtistByID
| HGetSongs | HGetSongByID | HGetStreamPlaylist | HGetStreamSegment
| HNotFound.

Record Route := {
  route_tpl : list TplPart;
  route_prefix : bool;
  route_handler : HandlerFunc }.

(** The routes registered by [StartServer], in their order. *)
Definition routes : list Route :=
  [ {| route_tpl := [TLit "/albums"]; route_prefix := false;
       route_handler := HGetAlbums |};
    {| route_tpl := [TLit "/albums/"; TVar "id" id_pattern]; route_prefix := false;
       route_handler := HGetAlbumByID |};
    {| route_tpl := [TLit "/genres"]; route_prefix := false;
       route_handler := HGetGenres |};
    {| route_tpl := [TLit "/artists"]; route_prefix := false;
       route_handler := HGetArtists |};
    {| route_tpl := [TLit "/artists/"; TVar "id" id_pattern]; route_prefix := false;
       route_handler := HGetArtistByID |};
    {| route_tpl := [TLit "/songs"]; route_prefix := false;
       route_handler := HGetSongs |};
    {| route_tpl := [TLit "/songs/"; TVar "id" id_pattern]; route_prefix := false;
       route_handler := HGetSongByID |};
    {| route_tpl := [TLit "/songs/"; TVar "id" id_pattern; TLit "/stream"];
       route_prefix := false;
       route_handler := HGetStreamPlaylist |};
    {| route_tpl := [TLit "/songs/"; TVar "id" id_pattern; TLit "/";
                     TVar "seg" seg_pattern];
       route_prefix := false;
       route_handler := HGetStreamSegment |};
    {| route_tpl := [TLit "/"]; route_prefix := true;
       route_handler := HNotFound |} ].

(** The router on the path of a GET request: the first route that
    matches, with the variables of the match. *)
Definition Router_Match (path : string) : option (HandlerFunc * gmap string string) :=
  first_some
    (λ rt, vars ← match_template (route_prefix rt) (route_tpl rt) path ∅;
           Some (route_handler rt, vars))
    routes.

(** A GET request after routing: its path, its query and the variables
    that the router took from the path ([mux.Vars]). *)
Record Request := {
  URL_Path : string;
  URL_Query : gmap string string;
  mux_Vars : gmap string string }.

(** ** Package [hls] and the file server of [net/http] *)

Section Embedding.
Context `{env : Env}.

(** [exec.Command(name, args...).Run()] *)
Definition Cmd_Run (name : string) (args : list string) (σ : World) : World * option error :=
  let σ := emit (EvExec name args) σ in
  let '(m, err) := run_command name args (fs σ) in
  (set_fs m σ, err).

(** [hls.Segment] runs the mediafilesegmenter command-line tool. *)
Definition hls_Segment (songPath destPath : string) (σ : World) : World * option error :=
  let '(σ, err) := Cmd_Run "mediafilesegmenter" ["-a"; "-f"; destPath; songPath] σ in
  match err with
  | Some e => (σ, Some e)
  | None => (σ, None)
  end.

(** [os.RemoveAll(name)] *)
Definition os_RemoveAll (name : string) (σ : World) : World * option error :=
  let σ := emit (EvRemoveAll name) σ in
  let '(m, err) := remove_all name (fs σ) in
  (set_fs m σ, err).

(** The content of a file served: the media type is sniffed only when the
    handler has set none. *)
Definition serveContent (w : ResponseWriter) (name content : string) : ResponseWriter :=
  let w := match Header w !! "Content-Type" with
           | Some _ => w
           | None => Header_Set "Content-Type" (sniff_type name content) w
           end in
  let w := WriteHeader StatusOK w in
  fst (Write (BFile content) w).

(** The listing of a directory. *)
Definition dirList (w : ResponseWriter) (name : string) : ResponseWriter :=
  let w := Header_Set "Content-Type" "text/html; charset=utf-8" w in
  fst (Write (BDirList name) w).

(** [http.ServeFile(w, r, name)] for a GET request without range or
    conditional headers, and a [name] without trailing slash: a file is
    sent whole; a directory answers with its index.html or its listing; a
    name that cannot be opened answers 404 in plain text. The checks of
    [ServeFile] on the path of the request (an element `..`, a trailing
    /index.html) are left out: no route that leads here lets such a path
    through. Only the Content-Type and X-Content-Type-Options headers are
    followed. *)
Definition http_ServeFile (w : ResponseWriter) (r : Request) (name : string)
    (σ : World) : ResponseWriter * World :=
  let σ := emit (EvOpen name) σ in
  match fs σ !! name with
  | None => (http_Error "404 page not found" StatusNotFound w, σ)
  | Some (File content) => (serveContent w name content, σ)
  | Some Dir =>
      match fs σ !! (name +:+ "/index.html") with
      | Some (File content) => (serveContent w (name +:+ "/index.html") content, σ)
      | _ => (dirList w name, σ)
      end
  end.

(** ** Package [http]: the handlers *)

(** [Handler]: the directory of the stream files and the services. The
    router is [routes]; the logger writes [EvLog] events. *)
Record Handler := {
  TempDir : string;
  GenreService : library.GenreService;
  AlbumService : library.AlbumService;
  ArtistService : library.ArtistService;
  SongService : library.SongService }.

(** [handleError] writes an API error message to the response. [None]:
    the call panics ([err.Error()] on a nil error). *)
Definition handleError (w : ResponseWriter) (err : option error) (code : Z)
    : option ResponseWriter :=
  e ← (if decide (code = StatusInternalServerError) then
         Some server.NewInternalServerError
       else if decide (code = StatusNotFound) then
         Some server.NewStatusNotFoundError
       else
         match err with
         | Some err' =>
             Some {| server.Status := string_of_rune code; server.Code := "";
                     server.Title := ""; server.Detail := Error_text err' |}
         | None => None
         end);
  let er := {| server.Errors := [] ++ [e] |} in
  let w := Header_Set "Content-Type" "application/json" w in
  let w := WriteHeader StatusOK w in
  Some (fst (json_Encode (VErrors er) w)).

(** [handleNotFound] writes the API error message when a fetched resource
    object is not found. *)
Definition handleNotFound (w : ResponseWriter) (r : Request) : option ResponseWriter :=
  handleError w None StatusNotFound.

(** [encodeJSON] writes the JSON-encoded response. *)
Definition encodeJSON (w : ResponseWriter) (v : JSONValue) : option ResponseWriter :=
  let w := Header_Set "Content-Type" "application/json" w in
  let w := WriteHeader StatusOK w in
  let '(w, err) := json_Encode v w in
  match err with
  | Some e => handleError w (Some e) StatusInternalServerError
  | None => Some w
  end.

(** [parseQueries] parses URL values for known possible queries. *)
Definition parseQueries (v : gmap string string) : gmap string string :=
  let queries : gmap string string := ∅ in
  let queries := <["albumID" := map_get v "album-id"]> queries in
  let queries := <["artistID" := map_get v "artist-id"]> queries in
  let queries := <["genreID" := map_get v "genre-id"]> queries in
  queries.

(** [handleGetSongByID] handles a request to get a song with the given ID. *)
Definition handleGetSongByID (h : Handler) (w : ResponseWriter) (r : Request)
    : option ResponseWriter :=
  let vars := mux_Vars r in
  let id := map_get vars "id" in
  if (0 <? String.length id)%nat then
    let '(a, err) := @library.song_by_id (SongService h) id in
    match err with
    | Some _ => handleError w err StatusInternalServerError
    | None =>
        match a with
        | None => handleNotFound w r
        | Some _ =>
            let songs := [] ++ [a] in
            let response := {| server.SongData := Some songs |} in
            encodeJSON w (VSongs response)
        end
    end
  else Some w.

(** [handleGetSongs] handles a request to get song data. *)
Definition handleGetSongs (h : Handler) (w : ResponseWriter) (r : Request)
    : option ResponseWriter :=
  let v := URL_Query r in
  let queries := parseQueries v in
  let '(songs, err) := @library.songs (SongService h) queries in
  match err with
  | Some _ => handleError w err StatusInternalServerError
  | None =>
      match songs with
      | None => handleNotFound w r
      | Some _ => encodeJSON w (VSongs {| server.SongData := songs |})
      end
  end.

(** [handleGetArtistByID] handles a request to get an artist with the
    given ID. *)
Definition handleGetArtistByID (h : Handler) (w : ResponseWriter) (r : Request)
    : option ResponseWriter :=
  let vars := mux_Vars r in
  let id := map_get vars "id" in
  if (0 <? String.length id)%nat then
    let '(a, err) := @library.artist_by_id (ArtistService h) id in
    match err with
    | Some _ => handleError w err StatusInternalServerError
    | None =>
        match a with
        | None => handleNotFound w r
        | Some _ =>
            let artists := [] ++ [a] in
            let response := {| server.ArtistData := Some artists |} in
            encodeJSON w (VArtists response)
        end
    end
  else Some w.

(** [handleGetArtists] handles a request to get artist data. *)
Definition handleGetArtists (h : Handler) (w : ResponseWriter) (r : Request)
    : option ResponseWriter :=
  let v := URL_Query r in
  let queries := parseQueries v in
  let '(artists, err) := @library.artists (ArtistService h) queries in
  match err with
  | Some _ => handleError w err StatusInternalServerError
  | None =>
      match artists with
      | None => handleNotFound w r
      | Some _ => encodeJSON w (VArtists {| server.ArtistData := artists |})
      end
  end.

(** [handleGetGenres] handles a request to get all genre data. *)
Definition handleGetGenres (h : Handler) (w : ResponseWriter) (r : Request)
    : option ResponseWriter :=
  let '(genres, err) := @library.genres (GenreService h) in
  match err with
  | Some _ => handleError w err StatusInternalServerError
  | None => encodeJSON w (VGenres {| server.GenreData := genres |})
  end.

(** [handleGetAlbumByID] handles a request to get an album with the given
    ID. *)
Definition handleGetAlbumByID (h : Handler) (w : ResponseWriter) (r : Request)
    : option ResponseWriter :=
  let vars := mux_Vars r in
  let id := map_get vars "id" in
  if (0 <? String.length id)%nat then
    let '(a, err) := @library.album_by_id (AlbumService h) id in
    match err with
    | Some _ => handleError w err StatusInternalServerError
    | None =>
        let albums := [] ++ [a] in
        let response := {| server.AlbumData := Some albums |} in
        encodeJSON w (VAlbums response)
    end
  else Some w.

(** [handleGetAlbums] handles a request to get albums. *)
Definition handleGetAlbums (h : Handler) (w : ResponseWriter) (r : Request)
    : option ResponseWriter :=
  let v := URL_Query r in
  let queries := parseQueries v in
  let '(albums, err) := @library.albums (AlbumService h) queries in
  match err with
  | Some _ => handleError w err StatusInternalServerError
  | None => encodeJSON w (VAlbums {| server.AlbumData := albums |})
  end.

(** The path of the playlist and of the directory of a song. *)
Definition playlistPath_of (h : Handler) (songID : string) : string :=
  TempDir h +:+ "/" +:+ songID +:+ "/prog_index.m3u8".

Definition playlistDir_of (h : Handler) (songID : string) : string :=
  TempDir h +:+ "/" +:+ songID.

(** [servePlaylist] serves the stream index (playlist) file for the given
    song ID. *)
Definition servePlaylist (h : Handler) (w : ResponseWriter) (r : Request)
    (songID songPath : string) (σ : World) : ResponseWriter * World :=
  let playlistPath := playlistPath_of h songID in
  let '(σ, (_, err)) := os_Stat playlistPath σ in
  let σ :=
    if os_IsNotExist err then
      let playlistDir := playlistDir_of h songID in
      let '(σ, _) := os_Mkdir playlistDir 448 σ in
      let '(σ, _) := hls_Segment songPath playlistDir σ in
      σ
    else σ in
  let w := Header_Set "Content-Type" "application/x-mpegURL" w in
  http_ServeFile w r playlistPath σ.

(** [handleGetStreamPlaylist] handles a request to get the stream index
    file for the given song ID. *)
Definition handleGetStreamPlaylist (h : Handler) (w : ResponseWriter) (r : Request)
    (σ : World) : option (ResponseWriter * World) :=
  let vars := mux_Vars r in
  let songID := map_get vars "id" in
  if (0 <? String.length songID)%nat then
    let '(song, err) := @library.song_by_id (SongService h) songID in
    match err with
    | Some _ => w' ← handleError w err StatusInternalServerError; Some (w', σ)
    | None =>
        match song with
        | None => w' ← handleNotFound w r; Some (w', σ)
        | Some s =>
            Some (servePlaylist h w r songID
                    (library.FilePath (library.Attributes s)) σ)
        end
    end
  else Some (w, σ).

(** [serveSegment] serves a media segment file. *)
Definition serveSegment (h : Handler) (w : ResponseWriter) (r : Request)
    (seg songID : string) (σ : World) : ResponseWriter * World :=
  let playlistDir := TempDir h +:+ "/" +:+ songID in
  let segPath := playlistDir +:+ "/" +:+ seg in
  let w := Header_Set "Content-Type" "audio/aac" w in
  http_ServeFile w r segPath σ.

(** [handleGetStreamSegment] handles a request to get a media segment
    file. *)
Definition handleGetStreamSegment (h : Handler) (w : ResponseWriter) (r : Request)
    (σ : World) : option (ResponseWriter * World) :=
  let vars := mux_Vars r in
  let songID := map_get vars "id" in
  if (0 <? String.length songID)%nat then
    let '(song, err) := @library.song_by_id (SongService h) songID in
    match err with
    | Some _ => w' ← handleError w err StatusInternalServerError; Some (w', σ)
    | None =>
        match song with
        | None => w' ← handleNotFound w r; Some (w', σ)
        | Some _ =>
            let seg := map_get vars "seg" in
            Some (serveSegment h w r seg songID σ)
        end
    end
  else Some (w, σ).

(** The call of a handler function. *)
Definition call (f : HandlerFunc) (h : Handler) (w : ResponseWriter) (r : Request)
    (σ : World) : option (ResponseWriter * World) :=
  let pure (o : option ResponseWriter) := w' ← o; Some (w', σ) in
  match f with
  | HGetAlbums => pure (handleGetAlbums h w r)
  | HGetAlbumByID => pure (handleGetAlbumByID h w r)
  | HGetGenres => pure (handleGetGenres h w r)
  | HGetArtists => pure (handleGetArtists h w r)
  | HGetArtistByID => pure (handleGetArtistByID h w r)
  | HGetSongs => pure (handleGetSongs h w r)
  | HGetSongByID => pure (handleGetSongByID h w r)
  | HGetStreamPlaylist => handleGetStreamPlaylist h w r σ
  | HGetStreamSegment => handleGetStreamSegment h w r σ
  | HNotFound => pure (handleNotFound w r)
  end.

(** The router serving a GET request for [path] with [query]: the request
    goes to the handler of the first route that matches. (The last route
    matches every path that begins with a slash.) *)
Definition Router_ServeHTTP (h : Handler) (w : ResponseWriter)
    (path : string) (query : gmap string string) (σ : World)
    : option (ResponseWriter * World) :=
  match Router_Match path with
  | Some (f, vars) =>
      call f h w {| URL_Path := path; URL_Query := query; mux_Vars := vars |} σ
  | None => Some (w, σ)
  end.

(** ** Requests for one playlist that run at the same time

    [servePlaylist] cut at its calls into the environment: the test for
    the playlist, the making of the directory, the run of the segmenter
    and the serving of the file. A request is at one of these points, and
    requests handled by different goroutines take their steps in any
    order. *)
Inductive PlaylistPC := AtStat | AtMkdir | AtSegment | AtServe | Returned.

Record PlaylistTask := { pc : PlaylistPC; task_w : ResponseWriter }.

Definition servePlaylist_step (h : Handler) (r : Request) (songID songPath : string)
    (t : PlaylistTask) (σ : World) : PlaylistTask * World :=
  let playlistPath := playlistPath_of h songID in
  let playlistDir := playlistDir_of h songID in
  match pc t with
  | AtStat =>
      let '(σ, (_, err)) := os_Stat playlistPath σ in
      ({| pc := if os_IsNotExist err then AtMkdir else AtServe;
          task_w := task_w t |}, σ)
  | AtMkdir =>
      let '(σ, _) := os_Mkdir playlistDir 448 σ in
      ({| pc := AtSegment; task_w := task_w t |}, σ)
  | AtSegment =>
      let '(σ, _) := hls_Segment songPath playlistDir σ in
      ({| pc := AtServe; task_w := task_w t |}, σ)
  | AtServe =>
      let w := Header_Set "Content-Type" "application/x-mpegURL" (task_w t) in
      let '(w, σ) := http_ServeFile w r playlistPath σ in
      ({| pc := Returned; task_w := w |}, σ)
  | Returned => (t, σ)
  end.

(** The run of a schedule: each entry names the request that takes the
    next step. *)
Fixpoint run_schedule (h : Handler) (r : Request) (songID songPath : string)
    (sched : list nat) (tasks : list PlaylistTask) (σ : World)
    : list PlaylistTask * World :=
  match sched with
  | [] => (tasks, σ)
  | i :: sched' =>
      match tasks !! i with
      | Some t =>
          let '(t', σ') := servePlaylist_step h r songID songPath t σ in
          run_schedule h r songID songPath sched' (<[i := t']> tasks) σ'
      | None => run_schedule h r songID songPath sched' tasks σ
      end
  end.

(** [n] requests that have not begun, each with a writer of its own. *)
Definition fresh_tasks (n : nat) : list PlaylistTask :=
  replicate n {| pc := AtStat; task_w := newResponseWriter false |}.

(** [n] requests for the playlist handled one after the other, each to
    its end before the next begins; the responses in order. *)
Fixpoint serve_in_sequence (h : Handler) (r : Request) (songID songPath : string)
    (n : nat) (σ : World) : list ResponseWriter * World :=
  match n with
  | O => ([], σ)
  | S n' =>
      let '(w, σ) := servePlaylist h (newResponseWriter false) r songID songPath σ in
      let '(ws, σ) := serve_in_sequence h r songID songPath n' σ in
      (w :: ws, σ)
  end.

(** How often the trace runs the segmenter, and how often it makes a
    directory. *)
Definition is_exec (e : Event) : bool :=
  match e with EvExec _ _ => true | _ => false end.

Definition is_mkdir (e : Event) : bool :=
  match e with EvMkdir _ _ => true | _ => false end.

Definition count_exec (tr : list Event) : nat := length (filter is_exec tr).

Definition count_mkdir (tr : list Event) : nat := length (filter is_mkdir tr).

(** ** Start and shutdown *)

(** [setTempDir] creates a temporary directory to store the files
    generated for HTTP Live Streaming. [Logger.Fatal] prints and leaves
    the process with status 1. *)
Definition setTempDir (h : Handler) (σ : World) : Handler * World * option error :=
  let σ := emit (EvTempDir "" "hls") σ in
  let '(dir, m, err) := make_temp_dir "" "hls" (fs σ) in
  let σ := set_fs m σ in
  match err with
  | Some e =>
      let σ := emit (EvExit 1) (Logger_Printf (Error_text e) σ) in
      (h, σ, Some e)
  | None =>
      ({| TempDir := dir; GenreService := GenreService h;
          AlbumService := AlbumService h; ArtistService := ArtistService h;
          SongService := SongService h |}, σ, None)
  end.

(** The goroutine of [StartServer] that defines the shutdown behaviour,
    from the arrival of the interrupt signal on. *)
Definition shutdown_goroutine (h : Handler) (σ : World) : World :=
  let σ := emit EvShutdown σ in
  let σ := match Shutdown_err with
           | Some err => Logger_Printf ("HTTP server Shutdown: " +:+ Error_text err) σ
           | None => σ
           end in
  let σ := Logger_Printf "HTTP server Shutdown" σ in
  let '(σ, _) := os_RemoveAll (TempDir h) σ in
  emit (EvClose "idleConnsClosed") σ.

(** [StartServer] performs an initial setup and then starts the media
    server; [serving] is what the requests do to the world until the
    interrupt signal arrives. The function returns once the channel
    [idleConnsClosed] is closed. *)
Definition StartServer (h : Handler) (serving : Handler -> World -> World)
    (σ : World) : Handler * World :=
  let '(h, σ, err) := setTempDir h σ in
  match err with
  | Some _ => (h, σ)
  | None =>
      let σ := match ListenAndServe_err with
               | Some err =>
                   Logger_Printf ("HTTP server ListenAndServe: " +:+ Error_text err) σ
               | None => serving h σ
               end in
      (h, shutdown_goroutine h σ)
  end.

End Embedding.

(** ** The language of a pattern *)

Inductive matches : regex -> string -> Prop :=
| M_Eps : matches Eps ""
| M_Byte lo hi c :
    (lo <= N_of_ascii c)%N -> (N_of_ascii c <= hi)%N ->
    matches (Byte lo hi) (String c "")
| M_Cat r1 r2 s1 s2 :
    matches r1 s1 -> matches r2 s2 -> matches (Cat r1 r2) (s1 +:+ s2)
| M_AltL r1 r2 s : matches r1 s -> matches (Alt r1 r2) s
| M_AltR r1 r2 s : matches r2 s -> matches (Alt r1 r2) s
| M_Star0 r : matches (Star r) ""
| M_StarS r s1 s2 :
    matches r s1 -> matches (Star r) s2 -> matches (Star r) (s1 +:+ s2).

(** Whether every byte of [s] passes the test [p]. *)
Fixpoint all_bytes (p : ascii -> bool) (s : string) : bool :=
  match s with
  | "" => true
  | String c rest => p c && all_bytes p rest
  end.

Definition is_digit (c : ascii) : bool :=
  (48 <=? N_of_ascii c)%N && (N_of_ascii c <=? 57)%N.

Definition not_slash (c : ascii) : bool := negb (Ascii.eqb c "/"%char).

(** Whether some element of the path [s] (the texts between its slashes)
    is [..]; [cur] is the element read so far, backwards. *)
Fixpoint has_dotdot_from (cur : string) (s : string) : bool :=
  match s with
  | "" => String.eqb cur ".."
  | String c rest =>
      if Ascii.eqb c "/"%char
      then String.eqb cur ".." || has_dotdot_from "" rest
      else has_dotdot_from (String c cur) rest
  end.

Definition has_dotdot (s : string) : bool := has_dotdot_from "" s.

(** ** Concrete environments and handlers, for the examples *)

(** A segmenter that works: given an existing media file and an existing
    target directory it writes the playlist and one segment there. *)
Definition segmenter_ok (name : string) (args : list string) (m : gmap string Node)
    : gmap string Node * option error :=
  match args with
  | [_; _; dest; src] =>
      match m !! dest, m !! src with
      | Some Dir, Some (File media) =>
          (<[dest +:+ "/prog_index.m3u8" := File ("#EXTM3U fileSequence0.aac")]>
             (<[dest +:+ "/fileSequence0.aac" := File media]> m), None)
      | _, _ => (m, Some (ExitError "exit status 1"))
      end
  | _ => (m, Some (ExitError "exit status 1"))
  end.

(** A machine without the segmenter: the command cannot be started. *)
Definition segmenter_absent (name : string) (args : list string) (m : gmap string Node)
    : gmap string Node * option error :=
  (m, Some (ErrorString "exec: mediafilesegmenter: executable file not found in $PATH")).

Definition env_ok : Env :=
  {| run_command := segmenter_ok;
     remove_all := λ name m, (remove_tree name m, None);
     make_temp_dir := λ dir pattern m, ("/tmp/hls1", <["/tmp/hls1" := Dir]> m, None);
     sniff_type := λ _ _, "application/octet-stream";
     Shutdown_err := None;
     ListenAndServe_err := None |}.

Definition env_no_segmenter : Env :=
  {| run_command := segmenter_absent;
     remove_all := λ name m, (remove_tree name m, None);
     make_temp_dir := λ dir pattern m, ("/tmp/hls1", <["/tmp/hls1" := Dir]> m, None);
     sniff_type := λ _ _, "application/octet-stream";
     Shutdown_err := None;
     ListenAndServe_err := None |}.

(** An environment in which the removal of the temporary directory fails
    and removes nothing. *)
Definition env_remove_fails : Env :=
  {| run_command := segmenter_ok;
     remove_all := λ name m, (m, Some (PathError "unlinkat" name EACCES));
     make_temp_dir := λ dir pattern m, ("/tmp/hls1", <["/tmp/hls1" := Dir]> m, None);
     sniff_type := λ _ _, "application/octet-stream";
     Shutdown_err := None;
     ListenAndServe_err := None |}.

(** A library with the one song 42, and no album, artist or genre. *)
Definition song42 : library.Song :=
  {| library.SongID := "42";
     library.Attributes := {| library.FilePath := "/music/42.mp3" |} |}.

Definition demo_songs : library.SongService :=
  {| library.song_by_id := λ id, if String.eqb id "42" then (Some song42, None)
                                  else (None, None);
     library.songs := λ _, (Some [Some song42], None) |}.

Definition demo_albums : library.AlbumService :=
  {| library.album_by_id := λ _, (None, None);
     library.albums := λ _, (None, None) |}.

Definition demo_artists : library.ArtistService :=
  {| library.artist_by_id := λ _, (None, None);
     library.artists := λ _, (None, None) |}.

Definition demo_genres : library.GenreService :=
  {| library.genres := (None, None) |}.

Definition demo_handler : Handler :=
  {| TempDir := "/tmp/hls1";
     GenreService := demo_genres; AlbumService := demo_albums;
     ArtistService := demo_artists; SongService := demo_songs |}.

(** The world once the server has started: the temporary directory is
    there and empty, the media file of song 42 is in the library. *)
Definition demo_world : World :=
  {| fs := <["/tmp/hls1" := Dir]> (<["/music/42.mp3" := File "audio"]> ∅);
     trace := [] |}.

Definition demo_request (id : string) : Request :=
  {| URL_Path := "/songs/" +:+ id +:+ "/stream"; URL_Query := ∅;
     mux_Vars := <["id" := id]> ∅ |}.

(** The log lines of a trace. *)
Definition log_lines (tr : list Event) : list string :=
  omap (λ e, match e with EvLog l => Some l | _ => None end) tr.

(** The response that carries the playlist [c]. *)
Definition playlist_response (c : string) : ResponseWriter :=
  {| Header := <["Content-Type" := "application/x-mpegURL"]> ∅;
     status := Some StatusOK; body := [BFile c]; broken := false |}.

(** The API error message for a resource that is not found, as a whole
    response; nothing is in the body when the connection is broken. *)
Definition not_found_response (brk : bool) : ResponseWriter :=
  {| Header := <["Content-Type" := "application/json"]> ∅;
     status := Some StatusOK;
     body := if brk then []
             else [BJSON (VErrors {| server.Errors := [server.NewStatusNotFoundError] |})];
     broken := brk |}.

(** Whether a request for the playlist may still run the segmenter: 1
    before it has passed the call, 0 after. *)
Definition pending (t : PlaylistTask) : nat :=
  match pc t with
  | AtStat | AtMkdir | AtSegment => 1
  | AtServe | Returned => 0
  end.

(** The events of a trace that follow the removal of a tree. *)
Fixpoint after_removal (tr : list Event) : list Event :=
  match tr with
  | [] => []
  | EvRemoveAll _ :: tr' => tr'
  | _ :: tr' => after_removal tr'
  end.

(** The world after one request for the playlist of song 42 where the
    segmenter works. *)
Definition demo_world_prepared : World :=
  (@servePlaylist env_ok demo_handler (newResponseWriter false) (demo_request "42")
     "42" "/music/42.mp3" demo_world).2.

Definition demo_segment_request (id seg : string) : Request :=
  {| URL_Path := "/songs/" +:+ id +:+ "/" +:+ seg; URL_Query := ∅;
     mux_Vars := <["seg" := seg]> (<["id" := id]> ∅) |}.

(** A response is in order as to errors when an errors envelope in its
    body means: status line 200, JSON content type, the envelope is the
    whole body and holds the one error Internal Server Error or Not
    Found. *)
Definition error_reply_ok (w : ResponseWriter) : Prop :=
  ∀ er, BJSON (VErrors er) ∈ body w →
    status w = Some StatusOK
    ∧ Header w !! "Content-Type" = Some "application/json"
    ∧ body w = [BJSON (VErrors er)]
    ∧ (er = {| server.Errors := [server.NewInternalServerError] |}
       ∨ er = {| server.Errors := [server.NewStatusNotFoundError] |}).

(** The API error message for a failure of the server, as a whole
    response; nothing is in the body when the connection is broken. *)
Definition internal_error_response (brk : bool) : ResponseWriter :=
  {| Header := <["Content-Type" := "application/json"]> ∅;
     status := Some StatusOK;
     body := if brk then []
             else [BJSON (VErrors {| server.Errors := [server.NewInternalServerError] |})];
     broken := brk |}.

(** A song service without songs. *)
Definition demo_no_songs : library.SongService :=
  {| library.song_by_id := λ _, (None, None);
     library.songs := λ _, (None, None) |}.

(** A handler over an empty library. *)
Definition demo_empty_handler : Handler :=
  {| TempDir := "/tmp/hls1";
     GenreService := demo_genres; AlbumService := demo_albums;
     ArtistService := demo_artists; SongService := demo_no_songs |}.

(** An error of the data-access layer. *)
Definition demo_db_error : error := ErrorString "database is locked".

(** A handler whose services all fail (the song lookup even returns a
    song beside the error). *)
Definition demo_failing_handler : Handler :=
  {| TempDir := "/tmp/hls1";
     GenreService := {| library.genres := (None, Some demo_db_error) |};
     AlbumService := {| library.album_by_id := λ _, (None, Some demo_db_error);
                        library.albums := λ _, (None, Some demo_db_error) |};
     ArtistService := {| library.artist_by_id := λ _, (None, Some demo_db_error);
                         library.artists := λ _, (None, Some demo_db_error) |};
     SongService := {| library.song_by_id := λ _, (Some song42, Some demo_db_error);
                       library.songs := λ _, (None, Some demo_db_error) |} |}.

(** A request for a playlist that is already there is about to test for
    it, about to serve it, or has served it. *)
Definition prepared_task (c : string) (t : PlaylistTask) : Prop :=
  (pc t = AtStat ∧ task_w t = newResponseWriter false)
  ∨ (pc t = AtServe ∧ task_w t = newResponseWriter false)
  ∨ (pc t = Returned ∧ task_w t = playlist_response c).

(** An environment in which no temporary directory can be made. *)
Definition env_no_temp_dir : Env :=
  {| run_command := segmenter_ok;
     remove_all := λ name m, (remove_tree name m, None);
     make_temp_dir := λ dir pattern m,
       ("", m, Some (PathError "mkdir" "/tmp/hls1" EACCES));
     sniff_type := λ _ _, "application/octet-stream";
     Shutdown_err := None;
     ListenAndServe_err := None |}.

(** The world before the server starts. *)
Definition demo_boot_world : World :=
  {| fs := <["/music/42.mp3" := File "audio"]> ∅; trace := [] |}.

(** A time of serving in which one playlist request for song 42 comes
    in. *)
Definition demo_serving `{env : Env} (h : Handler) (σ : World) : World :=
  (servePlaylist h (newResponseWriter false) (demo_request "42") "42"
     "/music/42.mp3" σ).2.

(** What a match of the router says about the path and the variables,
    by handler function. *)
Definition route_shape (f : HandlerFunc) (path : string) (vars : gmap string string)
    : Prop :=
  match f with
  | HGetAlbums => path = "/albums" ∧ vars = ∅
  | HGetAlbumByID =>
      ∃ id, path = "/albums/" +:+ id ∧ re_match id_pattern id = true
            ∧ vars = <["id" := id]> ∅
  | HGetGenres => path = "/genres" ∧ vars = ∅
  | HGetArtists => path = "/artists" ∧ vars = ∅
  | HGetArtistByID =>
      ∃ id, path = "/artists/" +:+ id ∧ re_match id_pattern id = true
            ∧ vars = <["id" := id]> ∅
  | HGetSongs => path = "/songs" ∧ vars = ∅
  | HGetSongByID =>
      ∃ id, path = "/songs/" +:+ id ∧ re_match id_pattern id = true
            ∧ vars = <["id" := id]> ∅
  | HGetStreamPlaylist =>
      ∃ id, path = "/songs/" +:+ id +:+ "/stream" ∧ re_match id_pattern id = true
            ∧ vars = <["id" := id]> ∅
  | HGetStreamSegment =>
      ∃ id seg, path = "/songs/" +:+ id +:+ "/" +:+ seg
                ∧ re_match id_pattern id = true ∧ re_match seg_pattern seg = true
                ∧ vars = <["seg" := seg]> (<["id" := id]> ∅)
  | HNotFound => has_prefix "/" path = true ∧ vars = ∅
  end.

(** The routes registered by [ServeHTTP], the start of the server before
    streaming was added. *)
Definition routes_v0 : list Route :=
  [ {| route_tpl := [TLit "/albums"]; route_prefix := false;
       route_handler := HGetAlbums |};
    {| route_tpl := [TLit "/albums/"; TVar "id" id_pattern]; route_prefix := false;
       route_handler := HGetAlbumByID |};
    {| route_tpl := [TLit "/genres"]; route_prefix := false;
       route_handler := HGetGenres |};
    {| route_tpl := [TLit "/artists"]; route_prefix := false;
       route_handler := HGetArtists |};
    {| route_tpl := [TLit "/artists/"; TVar "id" id_pattern]; route_prefix := false;
       route_handler := HGetArtistByID |};
    {| route_tpl := [TLit "/songs"]; route_prefix := false;
       route_handler := HGetSongs |};
    {| route_tpl := [TLit "/songs/"; TVar "id" id_pattern]; route_prefix := false;
       route_handler := HGetSongByID |};
    {| route_tpl := [TLit "/"]; route_prefix := true;
       route_handler := HNotFound |} ].

(** The router of [ServeHTTP]. *)
Definition Router_Match_v0 (path : string) : option (HandlerFunc * gmap string string) :=
  first_some
    (λ rt, vars ← match_template (route_prefix rt) (route_tpl rt) path ∅;
           Some (route_handler rt, vars))
    routes_v0.

(** An environment in which the port is taken. *)
Definition env_listen_fails : Env :=
  {| run_command := segmenter_ok;
     remove_all := λ name m, (remove_tree name m, None);
     make_temp_dir := λ dir pattern m, ("/tmp/hls1", <["/tmp/hls1" := Dir]> m, None);
     sniff_type := λ _ _, "application/octet-stream";
     Shutdown_err := None;
     ListenAndServe_err := Some (ErrorString "listen tcp :8080: bind: address already in use") |}.

(** * Properties *)

(** ** The response writer and the JSON envelopes *)

Lemma WriteHeader_status code w :
  status (WriteHeader code w) = Some (default code (status w)).
Proof. unfold WriteHeader. destruct (status w) eqn:E; simpl; auto. Qed.

Lemma WriteHeader_other code w :
  Header (WriteHeader code w) = Header w ∧ body (WriteHeader code w) = body w
  ∧ broken (WriteHeader code w) = broken w.
Proof. unfold WriteHeader. destruct (status w); auto. Qed.

Lemma Write_spec chunk w :
  status (Write chunk w).1 = Some (default StatusOK (status w))
  ∧ Header (Write chunk w).1 = Header w
  ∧ broken (Write chunk w).1 = broken w
  ∧ body (Write chunk w).1 = body w ++ (if broken w then [] else [chunk])
  ∧ (Write chunk w).2 =
      (if broken w then Some (ErrorString "write: broken pipe") else None).
Proof.
  unfold Write. pose proof (WriteHeader_status StatusOK w) as Hs.
  destruct (WriteHeader_other StatusOK w) as (Hh & Hb & Hk).
  rewrite Hk. destruct (broken w) eqn:Ek; simpl; rewrite ?Hs, ?Hh, ?Hb, ?Hk, ?Ek;
  rewrite ?app_nil_r; auto.
Qed.

(** [handleError] answers with one error in the envelope and never sets a
    status line other than 200. *)
Lemma handleError_spec w err code w' :
  handleError w err code = Some w' →
  ∃ e, status w' = Some (default StatusOK (status w))
     ∧ Header w' = <["Content-Type" := "application/json"]> (Header w)
     ∧ broken w' = broken w
     ∧ body w' = body w ++
         (if broken w then [] else [BJSON (VErrors {| server.Errors := [e] |})])
     ∧ (code = StatusInternalServerError → e = server.NewInternalServerError)
     ∧ (code = StatusNotFound → e = server.NewStatusNotFoundError).
Proof.
  unfold handleError. intros H.
  apply bind_Some in H as (e & He & Hw). exists e.
  injection Hw as <-. unfold json_Encode.
  destruct (Write_spec (BJSON (VErrors {| server.Errors := [e] |}))
              (WriteHeader StatusOK (Header_Set "Content-Type" "application/json" w)))
    as (Hs & Hh & Hk & Hb & _).
  destruct (WriteHeader_other StatusOK
              (Header_Set "Content-Type" "application/json" w)) as (Hh' & Hb' & Hk').
  rewrite Hs, Hh, Hk, Hb, Hh', Hb', Hk', WriteHeader_status. simpl.
  repeat split; auto.
  - intros ->. rewrite decide_True in He by done. congruence.
  - intros ->. rewrite decide_False in He by done.
    rewrite decide_True in He by done. congruence.
Qed.

(** With the codes that the handlers pass, [handleError] does not panic. *)
Lemma handleError_total w err code :
  code = StatusInternalServerError ∨ code = StatusNotFound →
  is_Some (handleError w err code).
Proof. intros [-> | ->]; unfold handleError; simpl; eauto. Qed.

Lemma encodeJSON_spec w v w' :
  encodeJSON w v = Some w' →
  status w' = Some (default StatusOK (status w))
  ∧ Header w' = <["Content-Type" := "application/json"]> (Header w)
  ∧ broken w' = broken w
  ∧ body w' = body w ++ (if broken w then [] else [BJSON v]).
Proof.
  unfold encodeJSON, json_Encode. intros H.
  destruct (Write_spec (BJSON v)
              (WriteHeader StatusOK (Header_Set "Content-Type" "application/json" w)))
    as (Hs & Hh & Hk & Hb & He).
  destruct (WriteHeader_other StatusOK (Header_Set "Content-Type" "application/json" w))
    as (Hh' & Hb' & Hk').
  rewrite WriteHeader_status, ?Hh', ?Hb', ?Hk' in *. simpl in *.
  destruct (Write _ _) as [w1 e1]. simpl in *. subst e1.
  destruct (broken w) eqn:Ek.
  - apply handleError_spec in H as (e & Hs1 & Hh1 & Hk1 & Hb1 & _).
    rewrite Hs1, Hh1, Hk1, Hb1, Hs, Hh, Hk, Hb. simpl.
    rewrite insert_insert_eq, !app_nil_r. destruct (status w); auto.
  - injection H as <-. auto.
Qed.

Lemma fresh_reply_ok brk : error_reply_ok (newResponseWriter brk).
Proof. intros er H. simpl in H. by apply elem_of_nil in H. Qed.

Lemma handleError_reply_ok brk err code w' :
  handleError (newResponseWriter brk) err code = Some w' →
  code = StatusInternalServerError ∨ code = StatusNotFound →
  error_reply_ok w'.
Proof.
  intros H Hcode er Hin.
  apply handleError_spec in H as (e & Hs & Hh & Hk & Hb & H500 & H404).
  simpl in *. rewrite Hb in Hin |- *. rewrite Hs, Hh.
  destruct brk; [by apply elem_of_nil in Hin|].
  apply list_elem_of_singleton in Hin. injection Hin as ->.
  split; [done|]. split; [apply lookup_insert_eq|]. split; [done|].
  destruct Hcode as [Hc | Hc]; [left; by rewrite H500 | right; by rewrite H404].
Qed.

Lemma encodeJSON_reply_ok brk v w' :
  encodeJSON (newResponseWriter brk) v = Some w' →
  (∀ er, v ≠ VErrors er) →
  error_reply_ok w'.
Proof.
  intros H Hv er Hin.
  apply encodeJSON_spec in H as (Hs & Hh & Hk & Hb).
  simpl in *. rewrite Hb in Hin.
  destruct brk; [by apply elem_of_nil in Hin|].
  apply list_elem_of_singleton in Hin. injection Hin as Hin.
  by destruct (Hv er).
Qed.

Lemma http_Error_body msg code w :
  body (http_Error msg code w) = body w ++ (if broken w then [] else [BText msg]).
Proof.
  unfold http_Error. cbv zeta.
  destruct (Write_spec (BText msg)
    (WriteHeader code (Header_Set "X-Content-Type-Options" "nosniff"
       (Header_Set "Content-Type" "text/plain; charset=utf-8"
          (Header_Del "Content-Length" w))))) as (_ & _ & _ & Hb & _).
  rewrite Hb.
  destruct (WriteHeader_other code (Header_Set "X-Content-Type-Options" "nosniff"
       (Header_Set "Content-Type" "text/plain; charset=utf-8"
          (Header_Del "Content-Length" w)))) as (_ & -> & ->).
  reflexivity.
Qed.

Lemma serveContent_spec `{env : Env} w name c :
  body (serveContent w name c) = body w ++ (if broken w then [] else [BFile c])
  ∧ status (serveContent w name c) = Some (default StatusOK (status w))
  ∧ (is_Some (Header w !! "Content-Type") → Header (serveContent w name c) = Header w).
Proof.
  unfold serveContent. cbv zeta.
  set (w1 := match Header w !! "Content-Type" with Some _ => w | None => _ end).
  assert (body w1 = body w ∧ broken w1 = broken w ∧ status w1 = status w
          ∧ (is_Some (Header w !! "Content-Type") → Header w1 = Header w))
    as (Hb1 & Hk1 & Hs1 & Hh1).
  { unfold w1. destruct (Header w !! "Content-Type"); simpl; repeat split; auto.
    by intros [? ?]. }
  destruct (Write_spec (BFile c) (WriteHeader StatusOK w1)) as (Hs & Hh & _ & Hb & _).
  destruct (WriteHeader_other StatusOK w1) as (Hh' & Hb' & Hk').
  rewrite Hs, Hh, Hb, Hh', Hb', Hk', WriteHeader_status, Hb1, Hk1, Hs1. simpl.
  repeat split; auto.
Qed.

Lemma dirList_body w name :
  body (dirList w name) = body w ++ (if broken w then [] else [BDirList name]).
Proof.
  unfold dirList. cbv zeta.
  destruct (Write_spec (BDirList name)
              (Header_Set "Content-Type" "text/html; charset=utf-8" w))
    as (_ & _ & _ & Hb & _).
  by rewrite Hb.
Qed.

(** What the file server writes is no JSON value. *)
Lemma http_ServeFile_body `{env : Env} w r name σ :
  ∃ chunk, (∀ v, chunk ≠ BJSON v)
    ∧ body (http_ServeFile w r name σ).1 = body w ++ (if broken w then [] else [chunk]).
Proof.
  unfold http_ServeFile. cbv zeta.
  destruct (fs _ !! name) as [[c|]|]; simpl.
  - exists (BFile c). split; [done|]. apply serveContent_spec.
  - destruct (fs _ !! (name +:+ "/index.html")) as [[c|]|]; simpl.
    + exists (BFile c). split; [done|]. apply serveContent_spec.
    + exists (BDirList name). split; [done|]. apply dirList_body.
    + exists (BDirList name). split; [done|]. apply dirList_body.
  - exists (BText "404 page not found"). split; [done|]. apply http_Error_body.
Qed.

Lemma http_ServeFile_reply_ok `{env : Env} w r name σ :
  body w = [] → error_reply_ok (http_ServeFile w r name σ).1.
Proof.
  intros Hw er Hin.
  destruct (http_ServeFile_body w r name σ) as (chunk & Hc & Hb).
  rewrite Hb, Hw in Hin. simpl in Hin.
  destruct (broken w); [by apply elem_of_nil in Hin|].
  apply list_elem_of_singleton in Hin. by destruct (Hc (VErrors er)).
Qed.

Lemma servePlaylist_route `{env : Env} h w r songID songPath σ :
  ∃ σ1, (servePlaylist h w r songID songPath σ).1 =
    (http_ServeFile (Header_Set "Content-Type" "application/x-mpegURL" w) r
       (playlistPath_of h songID) σ1).1.
Proof.
  unfold servePlaylist. cbv zeta.
  destruct (os_Stat _ σ) as [σ1 [n err]].
  destruct (os_IsNotExist err); [|by eexists].
  destruct (os_Mkdir _ _ σ1) as [σ2 e2].
  destruct (hls_Segment _ _ σ2) as [σ3 e3]. by eexists.
Qed.

(** C6: whichever handler a request goes to, a response whose body holds
    an errors envelope was sent with the status line 200 and the JSON
    content type; the envelope is the whole body and holds exactly one
    error, the Internal Server Error (status "500") or the Not Found
    (status "404"), so the kind of the error is in the body alone. *)
Theorem error_response_status_200 `{env : Env} f h r σ brk w' σ' er :
  call f h (newResponseWriter brk) r σ = Some (w', σ') →
  BJSON (VErrors er) ∈ body w' →
  status w' = Some StatusOK
  ∧ Header w' !! "Content-Type" = Some "application/json"
  ∧ body w' = [BJSON (VErrors er)]
  ∧ (er = {| server.Errors := [server.NewInternalServerError] |}
     ∨ er = {| server.Errors := [server.NewStatusNotFoundError] |}).
Proof.
  intros H. revert er. change (error_reply_ok w').
  destruct f; cbn [call] in H;
    try (apply bind_Some in H as (w1 & H & [= <- <-]));
    unfold handleGetAlbums, handleGetAlbumByID, handleGetGenres, handleGetArtists,
      handleGetArtistByID, handleGetSongs, handleGetSongByID,
      handleGetStreamPlaylist, handleGetStreamSegment, serveSegment,
      handleNotFound in H;
    cbv zeta in H; repeat case_match;
    try (apply bind_Some in H as (w1 & H & [= <- <-]));
    try match goal with
    | H : handleError _ _ _ = Some ?w |- error_reply_ok ?w =>
        apply (handleError_reply_ok _ _ _ _ H); auto
    | H : encodeJSON _ _ = Some ?w |- error_reply_ok ?w =>
        apply (encodeJSON_reply_ok _ _ _ H); intros ? ?; discriminate
    | H : Some (newResponseWriter _) = Some ?w |- error_reply_ok ?w =>
        injection H as <-; apply fresh_reply_ok
    | H : Some (newResponseWriter _, _) = Some (?w, _) |- error_reply_ok ?w =>
        injection H as <- _; apply fresh_reply_ok
    end.
  - injection H as Hw. apply (f_equal fst) in Hw. simpl in Hw.
    destruct (servePlaylist_route h (newResponseWriter brk) r
                (map_get (mux_Vars r) "id")
                (library.FilePath (library.Attributes s)) σ) as [σ1 Hr].
    rewrite <- Hw, Hr. by apply http_ServeFile_reply_ok.
  - injection H as Hw. apply (f_equal fst) in Hw. simpl in Hw.
    rewrite <- Hw. by apply http_ServeFile_reply_ok.
Qed.

Lemma error_response_status_200_witness :
  @call env_ok HGetStreamPlaylist demo_handler (newResponseWriter false)
     (demo_request "7") demo_world = Some (not_found_response false, demo_world)
  ∧ status (not_found_response false) = Some StatusOK
  ∧ body (not_found_response false) =
      [BJSON (VErrors {| server.Errors := [server.NewStatusNotFoundError] |})].
Proof.
  split; [reflexivity|].
  destruct (@error_response_status_200 env_ok HGetStreamPlaylist demo_handler
              (demo_request "7") demo_world false (not_found_response false) demo_world
              {| server.Errors := [server.NewStatusNotFoundError] |})
    as (Hs & _ & Hb & _).
  - reflexivity.
  - simpl. left.
  - split; [exact Hs | exact Hb].
Defined.

Lemma id_pattern_nonempty s :
  re_match id_pattern s = true → (0 <? String.length s)%nat = true.
Proof. destruct s; [discriminate | done]. Qed.

(** C10: for an identifier that the route lets through, when the album
    service returns neither an album nor an error the album handler
    answers with the success envelope whose data is the one null entry;
    the song and the artist handlers, in the same situation, answer with
    the Not Found error envelope. *)
Theorem album_by_id_missing_is_success h r :
  re_match id_pattern (map_get (mux_Vars r) "id") = true →
  (@library.album_by_id (AlbumService h) (map_get (mux_Vars r) "id") = (None, None) →
   handleGetAlbumByID h (newResponseWriter false) r =
     Some {| Header := <["Content-Type" := "application/json"]> ∅;
             status := Some StatusOK;
             body := [BJSON (VAlbums {| server.AlbumData := Some [None] |})];
             broken := false |})
  ∧ (@library.song_by_id (SongService h) (map_get (mux_Vars r) "id") = (None, None) →
     handleGetSongByID h (newResponseWriter false) r = Some (not_found_response false))
  ∧ (@library.artist_by_id (ArtistService h) (map_get (mux_Vars r) "id") = (None, None) →
     handleGetArtistByID h (newResponseWriter false) r = Some (not_found_response false)).
Proof.
  intros Hid%id_pattern_nonempty.
  repeat split; intros Hnone;
    unfold handleGetAlbumByID, handleGetSongByID, handleGetArtistByID;
    cbv zeta; rewrite Hid, Hnone; reflexivity.
Qed.

Lemma album_by_id_missing_is_success_witness :
  re_match id_pattern "7" = true
  ∧ handleGetAlbumByID demo_handler (newResponseWriter false) (demo_request "7") =
      Some {| Header := <["Content-Type" := "application/json"]> ∅;
              status := Some StatusOK;
              body := [BJSON (VAlbums {| server.AlbumData := Some [None] |})];
              broken := false |}
  ∧ handleGetSongByID demo_handler (newResponseWriter false) (demo_request "7") =
      Some (not_found_response false)
  ∧ handleGetArtistByID demo_handler (newResponseWriter false) (demo_request "7") =
      Some (not_found_response false).
Proof.
  split; [reflexivity|].
  destruct (album_by_id_missing_is_success demo_handler (demo_request "7"))
    as (Ha & Hs & Hr); [reflexivity|].
  split; [apply Ha; reflexivity|].
  split; [apply Hs; reflexivity | apply Hr; reflexivity].
Defined.

(** C5: when the song service returns neither a song nor an error for the
    identifier of a playlist request, the response is the Not Found
    envelope and the world is left as it was: nothing is added to the
    trace (no directory made, no segmenter run) and the filesystem is the
    same. *)
Theorem playlist_unknown_song_not_found `{env : Env} h r σ brk :
  re_match id_pattern (map_get (mux_Vars r) "id") = true →
  @library.song_by_id (SongService h) (map_get (mux_Vars r) "id") = (None, None) →
  handleGetStreamPlaylist h (newResponseWriter brk) r σ =
    Some (not_found_response brk, σ).
Proof.
  intros Hid%id_pattern_nonempty Hnone.
  unfold handleGetStreamPlaylist. cbv zeta. rewrite Hid, Hnone.
  destruct brk; reflexivity.
Qed.

Lemma playlist_unknown_song_not_found_witness :
  re_match id_pattern "7" = true
  ∧ @library.song_by_id demo_songs "7" = (None, None)
  ∧ @handleGetStreamPlaylist env_ok demo_handler (newResponseWriter false)
      (demo_request "7") demo_world = Some (not_found_response false, demo_world).
Proof.
  split; [reflexivity|]. split; [reflexivity|].
  apply (@playlist_unknown_song_not_found env_ok demo_handler (demo_request "7")
           demo_world false); reflexivity.
Defined.

(** ** The stream handlers *)

Lemma count_exec_app tr1 tr2 :
  count_exec (tr1 ++ tr2) = (count_exec tr1 + count_exec tr2)%nat.
Proof. unfold count_exec. by rewrite filter_app, length_app. Qed.

Lemma count_mkdir_app tr1 tr2 :
  count_mkdir (tr1 ++ tr2) = (count_mkdir tr1 + count_mkdir tr2)%nat.
Proof. unfold count_mkdir. by rewrite filter_app, length_app. Qed.

Lemma count_exec_one e : count_exec [e] = if is_exec e then 1%nat else 0%nat.
Proof. by destruct e. Qed.

(** C9: a segment request always returns, leaves the filesystem as it
    was, and adds to the trace nothing, or the one opening of the file
    at <TempDir>/<id>/<seg>; it makes no directory and runs no
    segmenter, whatever the state of the world and whatever the song
    service answers. *)
Theorem segment_request_reads_only `{env : Env} h w r σ :
  ∃ w' σ',
    handleGetStreamSegment h w r σ = Some (w', σ')
    ∧ fs σ' = fs σ
    ∧ (trace σ' = trace σ
       ∨ trace σ' = trace σ ++
           [EvOpen ((TempDir h +:+ "/" +:+ map_get (mux_Vars r) "id")
                      +:+ "/" +:+ map_get (mux_Vars r) "seg")])
    ∧ count_exec (trace σ') = count_exec (trace σ)
    ∧ count_mkdir (trace σ') = count_mkdir (trace σ).
Proof.
  unfold handleGetStreamSegment, serveSegment, http_ServeFile, handleNotFound, handleError.
  cbv zeta.
  destruct (0 <? String.length _)%nat; [| by eauto 10].
  destruct (library.song_by_id _) as [[s|] [e|]]; simpl;
    try (eexists _, _; split; [reflexivity|]; by auto).
  all: repeat case_match; eexists _, _; (split; [reflexivity|]); simpl;
    rewrite ?count_exec_app, ?count_mkdir_app; simpl; auto with lia.
Qed.

Lemma http_ServeFile_file_reply `{env : Env} w r name σ c :
  status w = None → broken w = false → body w = [] →
  is_Some (Header w !! "Content-Type") →
  body (http_ServeFile w r name σ).1 = [BFile c] →
  status (http_ServeFile w r name σ).1 = Some StatusOK
  ∧ Header (http_ServeFile w r name σ).1 = Header w.
Proof.
  intros Hs Hk Hb Hh. unfold http_ServeFile. cbv zeta.
  destruct (fs _ !! name) as [[c1|]|]; simpl.
  - intros _. destruct (serveContent_spec w name c1) as (_ & Hst & Hhd).
    by rewrite Hst, Hhd, Hs.
  - destruct (fs _ !! (name +:+ "/index.html")) as [[c1|]|]; simpl.
    + intros _.
      destruct (serveContent_spec w (name +:+ "/index.html") c1) as (_ & Hst & Hhd).
      by rewrite Hst, Hhd, Hs.
    + rewrite dirList_body, Hb, Hk. discriminate.
    + rewrite dirList_body, Hb, Hk. discriminate.
  - rewrite http_Error_body, Hb, Hk. discriminate.
Qed.

Lemma handleError_no_file brk err code w' c :
  handleError (newResponseWriter brk) err code = Some w' → body w' ≠ [BFile c].
Proof.
  intros H. apply handleError_spec in H as (e & _ & _ & _ & -> & _).
  simpl. by destruct brk.
Qed.

(** C7: a response of the playlist handler whose body is the content of
    a file has status 200 and the content type application/x-mpegURL; a
    response of the segment handler whose body is the content of a file
    has status 200 and the content type audio/aac. *)
Theorem stream_content_types `{env : Env} h r σ w' σ' c :
  (handleGetStreamPlaylist h (newResponseWriter false) r σ = Some (w', σ') →
   body w' = [BFile c] →
   status w' = Some StatusOK
   ∧ Header w' !! "Content-Type" = Some "application/x-mpegURL")
  ∧ (handleGetStreamSegment h (newResponseWriter false) r σ = Some (w', σ') →
     body w' = [BFile c] →
     status w' = Some StatusOK
     ∧ Header w' !! "Content-Type" = Some "audio/aac").
Proof.
  split; intros H Hb.
  - unfold handleGetStreamPlaylist, handleNotFound in H. cbv zeta in H.
    repeat case_match;
      try (apply bind_Some in H as (w1 & H & [= <- <-]);
           by destruct (handleError_no_file _ _ _ _ c H)).
    + injection H as Hw. apply (f_equal fst) in Hw. simpl in Hw.
      destruct (servePlaylist_route h (newResponseWriter false) r
                  (map_get (mux_Vars r) "id")
                  (library.FilePath (library.Attributes s)) σ) as [σ1 Hr].
      rewrite Hr in Hw. subst w'.
      apply http_ServeFile_file_reply in Hb as [-> ->]; simpl; eauto.
    + injection H as <- _. discriminate.
  - unfold handleGetStreamSegment, serveSegment, handleNotFound in H. cbv zeta in H.
    repeat case_match;
      try (apply bind_Some in H as (w1 & H & [= <- <-]);
           by destruct (handleError_no_file _ _ _ _ c H)).
    + injection H as Hw. apply (f_equal fst) in Hw. simpl in Hw. subst w'.
      apply http_ServeFile_file_reply in Hb as [-> ->]; simpl; eauto.
    + injection H as <- _. discriminate.
Qed.

Lemma stream_content_types_witness :
  (@handleGetStreamPlaylist env_ok demo_handler (newResponseWriter false)
     (demo_request "42") demo_world
   = Some (playlist_response "#EXTM3U fileSequence0.aac", demo_world_prepared)
   ∧ Header (playlist_response "#EXTM3U fileSequence0.aac") !! "Content-Type"
     = Some "application/x-mpegURL")
  ∧ ∃ w, @handleGetStreamSegment env_ok demo_handler (newResponseWriter false)
           (demo_segment_request "42" "fileSequence0.aac") demo_world_prepared
         = Some (w, emit (EvOpen "/tmp/hls1/42/fileSequence0.aac") demo_world_prepared)
         ∧ body w = [BFile "audio"]
         ∧ Header w !! "Content-Type" = Some "audio/aac".
Proof.
  split.
  - split; [reflexivity|].
    apply (@stream_content_types env_ok demo_handler (demo_request "42") demo_world
             (playlist_response "#EXTM3U fileSequence0.aac") demo_world_prepared
             "#EXTM3U fileSequence0.aac"); reflexivity.
  - exists {| Header := <["Content-Type" := "audio/aac"]> ∅; status := Some StatusOK;
              body := [BFile "audio"]; broken := false |}.
    split; [reflexivity|]. split; [reflexivity|].
    apply (@stream_content_types env_ok demo_handler
             (demo_segment_request "42" "fileSequence0.aac") demo_world_prepared
             {| Header := <["Content-Type" := "audio/aac"]> ∅; status := Some StatusOK;
                body := [BFile "audio"]; broken := false |}
             (emit (EvOpen "/tmp/hls1/42/fileSequence0.aac") demo_world_prepared)
             "audio"); reflexivity.
Defined.

(** ** Route patterns: what a match says about the text *)

Lemma append_nil_l (s : string) : "" +:+ s = s.
Proof. reflexivity. Qed.

Lemma append_cons (c : ascii) (s1 s2 : string) :
  String c s1 +:+ s2 = String c (s1 +:+ s2).
Proof. reflexivity. Qed.

Lemma nullable_sound r : nullable r = true → matches r "".
Proof.
  induction r; simpl; intros H; try discriminate.
  - constructor.
  - apply andb_true_iff in H as [H1 H2].
    change "" with ("" +:+ ""). constructor; auto.
  - apply orb_true_iff in H as [H1 | H2].
    + apply M_AltL; auto.
    + apply M_AltR; auto.
  - constructor.
Qed.

Lemma deriv_sound c r : ∀ s, matches (deriv c r) s → matches r (String c s).
Proof.
  induction r; simpl; intros s H.
  - inversion H.
  - inversion H.
  - destruct (_ && _) eqn:E; inversion H; subst.
    apply andb_true_iff in E as [E1%N.leb_le E2%N.leb_le].
    by constructor.
  - destruct (nullable r1) eqn:E.
    + inversion H as [| | | ? ? ? H1 | ? ? ? H2 | |]; subst.
      * inversion H1; subst. rewrite <- append_cons. constructor; auto.
      * rewrite <- (append_nil_l (String c s)).
        constructor; auto using nullable_sound.
    + inversion H; subst. rewrite <- append_cons. constructor; auto.
  - inversion H; subst; [apply M_AltL | apply M_AltR]; auto.
  - inversion H; subst. rewrite <- append_cons. constructor; auto.
Qed.

Lemma re_match_sound s : ∀ r, re_match r s = true → matches r s.
Proof.
  induction s as [|c s IH]; simpl; intros r H.
  - by apply nullable_sound.
  - by apply deriv_sound, IH.
Qed.

Lemma all_bytes_app p s1 s2 :
  all_bytes p (s1 +:+ s2) = all_bytes p s1 && all_bytes p s2.
Proof.
  induction s1 as [|c s1 IH]; [done|].
  rewrite append_cons. simpl. by rewrite IH, andb_assoc.
Qed.

Lemma matches_Digit s : matches Digit s → all_bytes is_digit s = true.
Proof.
  inversion 1; subst. simpl. unfold is_digit.
  rewrite andb_true_r. apply andb_true_iff. split; by apply N.leb_le.
Qed.

Lemma matches_Star_Digit s : matches (Star Digit) s → all_bytes is_digit s = true.
Proof.
  intros H. remember (Star Digit) as r eqn:Er.
  induction H; try discriminate; [done|].
  injection Er as ->. rewrite all_bytes_app.
  apply andb_true_iff. split; auto using matches_Digit.
Qed.

Lemma id_pattern_digits s : re_match id_pattern s = true → all_bytes is_digit s = true.
Proof.
  intros H%re_match_sound. inversion H; subst.
  rewrite all_bytes_app. apply andb_true_iff.
  split; auto using matches_Digit, matches_Star_Digit.
Qed.

Lemma digit_not_slash c : is_digit c = true → not_slash c = true.
Proof.
  unfold not_slash. destruct (Ascii.eqb_spec c "/"%char) as [->|]; [discriminate | done].
Qed.

Lemma digits_no_slash s : all_bytes is_digit s = true → all_bytes not_slash s = true.
Proof.
  induction s as [|c s IH]; simpl; [done|].
  intros [H1 H2]%andb_true_iff. apply andb_true_iff. auto using digit_not_slash.
Qed.

Lemma split_no_slash s : all_bytes not_slash s = true → split_last_slash s = None.
Proof.
  induction s as [|c s IH]; simpl; [done|].
  intros [H1 H2]%andb_true_iff. rewrite IH by done.
  unfold not_slash in H1. by destruct (Ascii.eqb c "/").
Qed.

Lemma split_join t s :
  all_bytes not_slash s = true → split_last_slash (t +:+ "/" +:+ s) = Some (t, s).
Proof.
  intros Hs. induction t as [|c t IH].
  - rewrite append_nil_l. change ("/" +:+ s) with (String "/" s).
    simpl. by rewrite split_no_slash.
  - rewrite append_cons. simpl. by rewrite IH.
Qed.

Lemma parent_of_song_dir (m : gmap string Node) t id :
  all_bytes not_slash id = true → m !! t = Some Dir →
  parent_node m (t +:+ "/" +:+ id) = Some Dir.
Proof.
  intros Hid Ht. unfold parent_node. rewrite split_join by done.
  by destruct t.
Qed.

Lemma matches_Lit l : ∀ s, matches (Lit l) s → s = l.
Proof.
  induction l as [|c l IH]; simpl; intros s H.
  - by inversion H.
  - inversion H as [| |? ? ? ? H1 H2| | | |]; subst.
    inversion H1; subst. rewrite append_cons, append_nil_l. f_equal.
    + rewrite <- (ascii_N_embedding c0), <- (ascii_N_embedding c). f_equal. lia.
    + by apply IH.
Qed.

Lemma matches_Cat_inv r1 r2 s :
  matches (Cat r1 r2) s → ∃ s1 s2, s = s1 +:+ s2 ∧ matches r1 s1 ∧ matches r2 s2.
Proof. inversion 1; eauto. Qed.

Lemma not_slash_ge c : (48 <= N_of_ascii c)%N → not_slash c = true.
Proof.
  intros H%N.leb_le. unfold not_slash.
  destruct (Ascii.eqb_spec c "/"%char) as [->|]; [discriminate | done].
Qed.

Lemma matches_AnyChar x :
  matches AnyChar x → (∃ b, x = String b "") ∨ all_bytes not_slash x = true.
Proof.
  unfold AnyChar. intros H.
  repeat match goal with
  | H : matches (Alt _ _) _ |- _ => inversion H; clear H; subst
  end;
  repeat match goal with
  | H : matches (Cat _ _) _ |- _ => inversion H; clear H; subst
  end;
  repeat match goal with
  | H : matches (Byte _ _) _ |- _ => inversion H; clear H; subst
  end;
  try (left; eexists; reflexivity);
  right; rewrite !append_cons, !append_nil_l; simpl;
  rewrite !not_slash_ge by lia; reflexivity.
Qed.

Lemma eqb_dotdot_long cur : (3 ≤ String.length cur)%nat → String.eqb cur ".." = false.
Proof.
  destruct cur as [|a [|b [|c cur]]]; simpl; try lia. intros _.
  destruct (Ascii.eqb a "."); [|done]. by destruct (Ascii.eqb b ".").
Qed.

Lemma has_dotdot_long s : ∀ cur,
  all_bytes not_slash s = true → (3 ≤ String.length cur + String.length s)%nat →
  has_dotdot_from cur s = false.
Proof.
  induction s as [|c s IH]; simpl; intros cur Hs Hlen.
  - apply eqb_dotdot_long. lia.
  - apply andb_true_iff in Hs as [Hc Hs]. unfold not_slash in Hc.
    destruct (Ascii.eqb c "/"); [done|]. apply IH; [done|]. simpl. lia.
Qed.

Lemma has_dotdot_app s1 s2 : ∀ cur,
  all_bytes not_slash s1 = true →
  has_dotdot_from cur (s1 +:+ s2) = has_dotdot_from (String.rev_app s1 cur) s2.
Proof.
  induction s1 as [|c s1 IH]; intros cur Hs; [done|].
  simpl in Hs. apply andb_true_iff in Hs as [Hc Hs]. unfold not_slash in Hc.
  rewrite append_cons. simpl. destruct (Ascii.eqb c "/"); [done|]. by apply IH.
Qed.

Lemma rev_app_length s : ∀ cur,
  String.length (String.rev_app s cur) = (String.length s + String.length cur)%nat.
Proof.
  induction s as [|c s IH]; intros cur; simpl; [done|]. rewrite IH. simpl. lia.
Qed.

(** What the pattern of the variable [seg] does keep out: a name that
    begins with a slash, and a name with an element [..]. *)
Lemma seg_pattern_no_dotdot seg :
  re_match seg_pattern seg = true →
  has_prefix "/" seg = false ∧ has_dotdot seg = false.
Proof.
  intros H%re_match_sound. unfold seg_pattern in H.
  apply matches_Cat_inv in H as (pre & rest1 & -> & Hpre & H).
  apply matches_Cat_inv in H as (ds & rest2 & -> & Hds & H).
  apply matches_Cat_inv in H as (x & suf & -> & Hx & Hsuf).
  apply matches_Lit in Hpre, Hsuf. subst pre suf.
  split; [reflexivity|].
  assert (all_bytes not_slash ds = true) as Hd.
  { apply matches_Cat_inv in Hds as (d1 & d2 & -> & Hd1 & Hd2). rewrite all_bytes_app.
    apply andb_true_iff.
    split; apply digits_no_slash; auto using matches_Digit, matches_Star_Digit. }
  unfold has_dotdot.
  rewrite (has_dotdot_app "fileSequence") by reflexivity.
  rewrite has_dotdot_app by done.
  set (cur := String.rev_app ds _).
  assert (12 ≤ String.length cur)%nat as Hlen.
  { unfold cur. rewrite rev_app_length. simpl. lia. }
  destruct (matches_AnyChar x Hx) as [[b ->] | Hns].
  - rewrite append_cons, append_nil_l. simpl.
    destruct (Ascii.eqb b "/").
    + rewrite eqb_dotdot_long by lia. reflexivity.
    + reflexivity.
  - apply has_dotdot_long; [|lia].
    rewrite all_bytes_app, Hns. reflexivity.
Qed.

(** ** Requests for the playlist of one song *)

Section Playlist.
Context `{env : Env}.
Variables (h : Handler) (r : Request) (songID songPath : string).

Local Abbreviation pp := (playlistPath_of h songID).
Local Abbreviation dir := (playlistDir_of h songID).
Local Abbreviation segment_args := ["-a"; "-f"; playlistDir_of h songID; songPath].

(** The fast path *)
Lemma servePlaylist_fast w σ :
  is_Some (fs σ !! pp) →
  servePlaylist h w r songID songPath σ =
    http_ServeFile (Header_Set "Content-Type" "application/x-mpegURL" w) r pp
      (emit (EvStat pp) σ).
Proof.
  intros [n Hn]. unfold servePlaylist, os_Stat. cbv zeta.
  change (fs (emit (EvStat (playlistPath_of h songID)) σ)) with (fs σ).
  fold pp. rewrite Hn. reflexivity.
Qed.

Lemma http_ServeFile_world w name σ :
  (http_ServeFile w r name σ).2 = emit (EvOpen name) σ.
Proof. unfold http_ServeFile. cbv zeta. by repeat case_match. Qed.

Lemma servePlaylist_fast_world w σ :
  is_Some (fs σ !! pp) →
  fs (servePlaylist h w r songID songPath σ).2 = fs σ
  ∧ trace (servePlaylist h w r songID songPath σ).2 = trace σ ++ [EvStat pp; EvOpen pp].
Proof.
  intros H. rewrite servePlaylist_fast, http_ServeFile_world by done.
  simpl. by rewrite <- app_assoc.
Qed.

(** The slow path *)
Lemma servePlaylist_slow w σ :
  fs σ !! pp = None →
  servePlaylist h w r songID songPath σ =
    http_ServeFile (Header_Set "Content-Type" "application/x-mpegURL" w) r pp
      (hls_Segment songPath dir (os_Mkdir dir 448 (emit (EvStat pp) σ)).1).1.
Proof.
  intros Hn. unfold servePlaylist, os_Stat. cbv zeta.
  change (fs (emit (EvStat (playlistPath_of h songID)) σ)) with (fs σ).
  fold pp. rewrite Hn. simpl os_IsNotExist. cbv iota.
  fold dir. destruct (os_Mkdir _ _ _) as [σ1 e1]. 
  destruct (hls_Segment _ _ _) as [σ2 e2]. reflexivity.
Qed.

Lemma os_Mkdir_trace name perm σ :
  trace (os_Mkdir name perm σ).1 = trace σ ++ [EvMkdir name perm].
Proof. unfold os_Mkdir. cbv zeta. by repeat case_match. Qed.

Lemma hls_Segment_trace src dst σ :
  trace (hls_Segment src dst σ).1 =
    trace σ ++ [EvExec "mediafilesegmenter" ["-a"; "-f"; dst; src]].
Proof.
  unfold hls_Segment, Cmd_Run. cbv zeta.
  destruct (run_command _ _ _) as [m [e|]]; reflexivity.
Qed.

Lemma hls_Segment_fs src dst σ :
  fs (hls_Segment src dst σ).1 =
    (run_command "mediafilesegmenter" ["-a"; "-f"; dst; src] (fs σ)).1.
Proof.
  unfold hls_Segment, Cmd_Run. cbv zeta.
  destruct (run_command _ _ _) as [m [e|]]; reflexivity.
Qed.

(** Whatever path is taken, the events of one request. *)
Lemma servePlaylist_trace w σ :
  trace (servePlaylist h w r songID songPath σ).2 =
    trace σ ++ [EvStat pp] ++
      match fs σ !! pp with
      | Some _ => []
      | None => [EvMkdir dir 448; EvExec "mediafilesegmenter" segment_args]
      end ++ [EvOpen pp].
Proof.
  destruct (fs σ !! pp) as [n|] eqn:E.
  - apply servePlaylist_fast_world. by rewrite E.
  - rewrite servePlaylist_slow, http_ServeFile_world by done.
    simpl. rewrite hls_Segment_trace, os_Mkdir_trace. simpl.
    by rewrite <- !app_assoc.
Qed.

Lemma servePlaylist_count_exec w σ :
  count_exec (trace (servePlaylist h w r songID songPath σ).2) =
    (count_exec (trace σ) + match fs σ !! pp with Some _ => 0 | None => 1 end)%nat.
Proof.
  rewrite servePlaylist_trace, count_exec_app. f_equal.
  by destruct (fs σ !! pp).
Qed.

(** C3 (amended): a playlist request that finds the playlist file leaves
    the filesystem as it was and does nothing but test for the file and
    open it (no directory made, no segmenter run); so two requests for
    one song in sequence run the segmenter at most once, provided the
    playlist file is there after the first. *)
Theorem playlist_twice_at_most_once w1 w2 σ :
  let σ1 := (servePlaylist h w1 r songID songPath σ).2 in
  let σ2 := (servePlaylist h w2 r songID songPath σ1).2 in
  (∀ w σ', is_Some (fs σ' !! playlistPath_of h songID) →
     fs (servePlaylist h w r songID songPath σ').2 = fs σ'
     ∧ trace (servePlaylist h w r songID songPath σ').2 =
         trace σ' ++ [EvStat (playlistPath_of h songID);
                      EvOpen (playlistPath_of h songID)])
  ∧ (is_Some (fs σ1 !! playlistPath_of h songID) →
     (count_exec (trace σ2) ≤ count_exec (trace σ) + 1)%nat).
Proof.
  intros σ1 σ2. split.
  - intros w σ' H. by apply servePlaylist_fast_world.
  - intros [n Hn]. unfold σ2, σ1 in *. rewrite !servePlaylist_count_exec.
    fold pp in Hn. rewrite Hn. destruct (fs σ !! pp); lia.
Qed.


Lemma http_ServeFile_file w name c σ :
  fs σ !! name = Some (File c) →
  (http_ServeFile w r name σ).1 = serveContent w name c.
Proof.
  intros H. unfold http_ServeFile. cbv zeta.
  change (fs (emit (EvOpen name) σ)) with (fs σ). by rewrite H.
Qed.

Lemma serve_in_sequence_fast c n : ∀ σ,
  fs σ !! pp = Some (File c) →
  (serve_in_sequence h r songID songPath n σ).1 = replicate n (playlist_response c)
  ∧ fs (serve_in_sequence h r songID songPath n σ).2 = fs σ
  ∧ count_exec (trace (serve_in_sequence h r songID songPath n σ).2) = count_exec (trace σ).
Proof.
  induction n as [|n IH]; intros σ Hpp; simpl; [done|].
  pose proof (servePlaylist_count_exec (newResponseWriter false) σ) as Hc.
  assert (is_Some (fs σ !! pp)) as Hs by (by rewrite Hpp).
  pose proof (servePlaylist_fast_world (newResponseWriter false) σ Hs) as [Hfs _].
  pose proof (servePlaylist_fast (newResponseWriter false) σ Hs) as Hw.
  apply (f_equal fst) in Hw. rewrite (http_ServeFile_file _ _ c) in Hw by done.
  rewrite Hpp in Hc.
  destruct (servePlaylist _ _ _ _ _ _) as [w σ1]. simpl in *.
  assert (fs σ1 !! pp = Some (File c)) as Hpp1 by (by rewrite Hfs).
  destruct (IH σ1 Hpp1) as (IH1 & IH2 & IH3).
  destruct (serve_in_sequence _ _ _ _ _ _) as [ws σ2]. simpl in *.
  subst w ws. repeat split; [congruence | lia].
Qed.

(** The first request for a song: the directory is made, the segmenter
    runs once, and when that run leaves the playlist [c] behind, [c] is
    what the request serves. *)
Lemma servePlaylist_first c σ :
  re_match id_pattern songID = true →
  fs σ !! TempDir h = Some Dir →
  fs σ !! dir = None →
  fs σ !! pp = None →
  (run_command "mediafilesegmenter" segment_args (<[dir := Dir]> (fs σ))).1 !! pp
    = Some (File c) →
  (servePlaylist h (newResponseWriter false) r songID songPath σ).1 = playlist_response c
  ∧ fs (servePlaylist h (newResponseWriter false) r songID songPath σ).2 !! pp = Some (File c)
  ∧ count_exec (trace (servePlaylist h (newResponseWriter false) r songID songPath σ).2)
    = (count_exec (trace σ) + 1)%nat.
Proof.
  intros Hid Ht Hdir Hpp Hseg.
  pose proof (servePlaylist_count_exec (newResponseWriter false) σ) as Hc.
  rewrite Hpp in Hc.
  assert (fs (hls_Segment songPath dir
                (os_Mkdir dir 448 (emit (EvStat pp) σ)).1).1 !! pp = Some (File c)) as Hfile.
  { rewrite hls_Segment_fs. unfold os_Mkdir. cbv zeta. simpl fs.
    rewrite Hdir. unfold dir, playlistDir_of.
    rewrite parent_of_song_dir by auto using digits_no_slash, id_pattern_digits.
    exact Hseg. }
  split; [|split]; [| |done]; rewrite servePlaylist_slow by done.
  - by rewrite (http_ServeFile_file _ _ c).
  - by rewrite http_ServeFile_world.
Qed.

Lemma pending_step t σ :
  let res := servePlaylist_step h r songID songPath t σ in
  (count_exec (trace res.2) + pending res.1 ≤ count_exec (trace σ) + pending t)%nat.
Proof.
  unfold servePlaylist_step, pending. cbv zeta. destruct (pc t) eqn:E; simpl.
  - unfold os_Stat. cbv zeta. destruct (fs _ !! _); simpl;
      rewrite count_exec_app, count_exec_one; simpl; lia.
  - pose proof (os_Mkdir_trace (playlistDir_of h songID) 448 σ) as Hm.
    destruct (os_Mkdir _ _ _) as [σ1 e1]. simpl in *. rewrite Hm, count_exec_app, count_exec_one.
    simpl. lia.
  - pose proof (hls_Segment_trace songPath (playlistDir_of h songID) σ) as Hm.
    destruct (hls_Segment _ _ _) as [σ1 e1]. simpl in *. rewrite Hm, count_exec_app, count_exec_one.
    simpl. lia.
  - pose proof (http_ServeFile_world
        (Header_Set "Content-Type" "application/x-mpegURL" (task_w t))
        (playlistPath_of h songID) σ) as Hm.
    destruct (http_ServeFile _ _ _ _) as [w1 σ1]. simpl in *. rewrite Hm. simpl.
    rewrite count_exec_app, count_exec_one. simpl. lia.
  - rewrite E. lia.
Qed.

Lemma sum_list_insert {A} (f : A → nat) (l : list A) i x y :
  l !! i = Some x →
  (sum_list (f <$> <[i := y]> l) + f x = sum_list (f <$> l) + f y)%nat.
Proof.
  revert i. induction l as [|a l IH]; intros [|i] H; simplify_eq/=; [lia|].
  specialize (IH i H). lia.
Qed.

Lemma run_schedule_potential sched : ∀ tasks σ,
  let res := run_schedule h r songID songPath sched tasks σ in
  (count_exec (trace res.2) + sum_list (pending <$> res.1)
   ≤ count_exec (trace σ) + sum_list (pending <$> tasks))%nat.
Proof.
  induction sched as [|i sched IH]; intros tasks σ; simpl; [lia|].
  destruct (tasks !! i) as [t|] eqn:E; [|apply IH].
  pose proof (pending_step t σ) as Hp.
  destruct (servePlaylist_step _ _ _ _ _ _) as [t' σ']. simpl in Hp.
  specialize (IH (<[i := t']> tasks) σ'). simpl in IH.
  pose proof (sum_list_insert pending tasks i t t' E). lia.
Qed.

Lemma pending_fresh n : sum_list (pending <$> fresh_tasks n) = n.
Proof. induction n; simpl; auto. Qed.

(** C1 (amended): no lock is held per song. When the requests of a first
    time for one song are handled one after the other, and the run of
    the segmenter leaves the playlist [c] in the directory of the song,
    the segmenter runs exactly once and every request receives [c]. When
    [n] such requests take their steps in any order, the segmenter runs
    at most [n] times. *)
Theorem playlist_requests_in_sequence_and_interleaved c n sched σ :
  re_match id_pattern songID = true →
  fs σ !! TempDir h = Some Dir →
  fs σ !! playlistDir_of h songID = None →
  fs σ !! playlistPath_of h songID = None →
  (run_command "mediafilesegmenter"
     ["-a"; "-f"; playlistDir_of h songID; songPath]
     (<[playlistDir_of h songID := Dir]> (fs σ))).1
    !! playlistPath_of h songID = Some (File c) →
  ((serve_in_sequence h r songID songPath (S n) σ).1 = replicate (S n) (playlist_response c)
   ∧ count_exec (trace (serve_in_sequence h r songID songPath (S n) σ).2)
     = (count_exec (trace σ) + 1)%nat)
  ∧ (count_exec (trace (run_schedule h r songID songPath sched (fresh_tasks n) σ).2)
     ≤ count_exec (trace σ) + n)%nat.
Proof.
  intros Hid Ht Hdir Hpp Hseg. split.
  - destruct (servePlaylist_first c σ Hid Ht Hdir Hpp Hseg) as (Hw & Hfile & Hc).
    simpl. destruct (servePlaylist _ _ _ _ _ _) as [w σ1]. simpl in *.
    destruct (serve_in_sequence_fast c n σ1 Hfile) as (IH1 & IH2 & IH3).
    destruct (serve_in_sequence _ _ _ _ _ _) as [ws σ2]. simpl in *.
    subst. split; [done | lia].
  - pose proof (run_schedule_potential sched (fresh_tasks n) σ) as Hp.
    simpl in Hp. rewrite pending_fresh in Hp. lia.
Qed.

(** The steps of [servePlaylist_step], taken without interruption, are
    [servePlaylist]. *)
Lemma servePlaylist_as_steps w σ :
  run_schedule h r songID songPath [0; 0; 0; 0]%nat
    [{| pc := AtStat; task_w := w |}] σ =
  ([{| pc := Returned; task_w := (servePlaylist h w r songID songPath σ).1 |}],
   (servePlaylist h w r songID songPath σ).2).
Proof.
  unfold servePlaylist. simpl. unfold servePlaylist_step at 1. simpl.
  destruct (os_Stat _ σ) as [σ1 [n err]].
  destruct (os_IsNotExist err); simpl.
  - unfold servePlaylist_step at 1. simpl.
    destruct (os_Mkdir _ _ σ1) as [σ2 e2]. simpl.
    unfold servePlaylist_step at 1. simpl.
    destruct (hls_Segment _ _ σ2) as [σ3 e3]. simpl.
    unfold servePlaylist_step. simpl.
    destruct (http_ServeFile _ _ _ σ3) as [w4 σ4]. reflexivity.
  - unfold servePlaylist_step at 1. simpl.
    destruct (http_ServeFile _ _ _ σ1) as [w4 σ4]. reflexivity.
Qed.

End Playlist.

Lemma playlist_twice_at_most_once_witness :
  is_Some (fs demo_world_prepared !! "/tmp/hls1/42/prog_index.m3u8")
  ∧ (count_exec
       (trace (@servePlaylist env_ok demo_handler (newResponseWriter false)
                 (demo_request "42") "42" "/music/42.mp3" demo_world_prepared).2)
     ≤ count_exec (trace demo_world) + 1)%nat.
Proof.
  split; [vm_compute; eauto|].
  apply (@playlist_twice_at_most_once env_ok demo_handler (demo_request "42")
           "42" "/music/42.mp3" (newResponseWriter false) (newResponseWriter false)
           demo_world).
  vm_compute. eauto.
Defined.

(** C3, as stated, fails where the segmenter fails: the first request
    leaves no playlist behind, and the second request runs the segmenter
    again. *)
Lemma playlist_twice_runs_failing_segmenter_twice :
  count_exec (trace demo_world) = 0%nat
  ∧ count_exec
      (trace (@serve_in_sequence env_no_segmenter demo_handler (demo_request "42")
                "42" "/music/42.mp3" 2 demo_world).2) = 2%nat
  ∧ ¬ (count_exec
         (trace (@serve_in_sequence env_no_segmenter demo_handler (demo_request "42")
                   "42" "/music/42.mp3" 2 demo_world).2) ≤ 1)%nat.
Proof.
  split; [reflexivity|]. split; [reflexivity|].
  vm_compute. lia.
Qed.

Lemma playlist_requests_in_sequence_and_interleaved_witness :
  re_match id_pattern "42" = true
  ∧ fs demo_world !! "/tmp/hls1" = Some Dir
  ∧ ((@serve_in_sequence env_ok demo_handler (demo_request "42") "42" "/music/42.mp3"
        3 demo_world).1
     = replicate 3 (playlist_response "#EXTM3U fileSequence0.aac")
     ∧ count_exec
         (trace (@serve_in_sequence env_ok demo_handler (demo_request "42") "42"
                   "/music/42.mp3" 3 demo_world).2)
       = (count_exec (trace demo_world) + 1)%nat)
  ∧ (count_exec
       (trace (@run_schedule env_ok demo_handler (demo_request "42") "42"
                 "/music/42.mp3" [0; 1; 0; 0; 0; 1; 1; 1]%nat (fresh_tasks 2)
                 demo_world).2)
     ≤ count_exec (trace demo_world) + 2)%nat.
Proof.
  split; [reflexivity|]. split; [reflexivity|].
  apply (@playlist_requests_in_sequence_and_interleaved env_ok demo_handler
           (demo_request "42") "42" "/music/42.mp3" "#EXTM3U fileSequence0.aac"
           2 [0; 1; 0; 0; 0; 1; 1; 1]%nat demo_world); reflexivity.
Defined.

(** C1, as stated, fails: two requests of a first time for song 42, the
    second testing for the playlist before the first has run the
    segmenter, both run to their end and the segmenter has run twice. *)
Lemma concurrent_requests_run_segmenter_twice :
  pc <$> (@run_schedule env_ok demo_handler (demo_request "42") "42" "/music/42.mp3"
            [0; 1; 0; 0; 0; 1; 1; 1]%nat (fresh_tasks 2) demo_world).1
    = [Returned; Returned]
  ∧ count_exec
      (trace (@run_schedule env_ok demo_handler (demo_request "42") "42"
                "/music/42.mp3" [0; 1; 0; 0; 0; 1; 1; 1]%nat (fresh_tasks 2)
                demo_world).2) = 2%nat
  ∧ count_exec
      (trace (@run_schedule env_ok demo_handler (demo_request "42") "42"
                "/music/42.mp3" [0; 1; 0; 0; 0; 1; 1; 1]%nat (fresh_tasks 2)
                demo_world).2) ≠ 1%nat.
Proof.
  split; [reflexivity|]. split; [reflexivity|].
  vm_compute. lia.
Qed.

(** C2: on a machine without the segmenter, [hls.Segment] returns the
    error of the command, and the response to the playlist request of an
    existing song is the 404 of the file server in plain text, not the
    Internal Server Error envelope: the error is dropped by
    [servePlaylist]. *)
Theorem segmenter_failure_answers_404 :
  @library.song_by_id demo_songs "42" = (Some song42, None)
  ∧ (@hls_Segment env_no_segmenter "/music/42.mp3" "/tmp/hls1/42" demo_world).2
    = Some (ErrorString
              "exec: mediafilesegmenter: executable file not found in $PATH")
  ∧ ∃ w σ',
      @handleGetStreamPlaylist env_no_segmenter demo_handler (newResponseWriter false)
        (demo_request "42") demo_world = Some (w, σ')
      ∧ status w = Some StatusNotFound
      ∧ Header w !! "Content-Type" = Some "text/plain; charset=utf-8"
      ∧ body w = [BText "404 page not found"]
      ∧ count_exec (trace σ') = 1%nat.
Proof.
  split; [reflexivity|]. split; [reflexivity|].
  eexists _, _. split; [reflexivity|]. repeat split.
Qed.

(** C4: the dot of the route pattern [fileSequence[0-9]+.aac] stands for
    any character, so the path /songs/42/fileSequence0/aac goes to the
    segment handler with the segment name fileSequence0/aac, which holds
    a slash and is joined onto the directory of the song as it is. *)
Theorem segment_name_with_slash_is_joined :
  re_match seg_pattern "fileSequence0/aac" = true
  ∧ Router_Match "/songs/42/fileSequence0/aac"
    = Some (HGetStreamSegment, <["seg" := "fileSequence0/aac"]> (<["id" := "42"]> ∅))
  ∧ ∃ w σ',
      @Router_ServeHTTP env_ok demo_handler (newResponseWriter false)
        "/songs/42/fileSequence0/aac" ∅ demo_world = Some (w, σ')
      ∧ trace σ' = [EvOpen "/tmp/hls1/42/fileSequence0/aac"].
Proof.
  split; [reflexivity|]. split; [reflexivity|].
  eexists _, _. split; reflexivity.
Qed.

(** ** Shutdown *)

(** C8 (amended): from the interrupt on, the goroutine shuts the server
    down, logs the error of the shutdown if there is one, logs the
    shutdown, then removes the temporary directory and closes the
    channel on which [StartServer] waits. Whatever the removal returns,
    nothing is logged after it and the channel is closed: its error is
    dropped. *)
Theorem shutdown_removes_after_server_stops `{env : Env} h σ :
  trace (shutdown_goroutine h σ) =
    trace σ ++ [EvShutdown]
      ++ match Shutdown_err with
         | Some err => [EvLog ("HTTP server Shutdown: " +:+ Error_text err)]
         | None => []
         end
      ++ [EvLog "HTTP server Shutdown"; EvRemoveAll (TempDir h);
          EvClose "idleConnsClosed"]
  ∧ fs (shutdown_goroutine h σ) = (remove_all (TempDir h) (fs σ)).1.
Proof.
  unfold shutdown_goroutine, os_RemoveAll, Logger_Printf. cbv zeta.
  destruct Shutdown_err as [e|]; simpl;
    destruct (remove_all _ _) as [m e2]; simpl;
    rewrite <- ?app_assoc; auto.
Qed.

(** C8, as stated, fails: where the removal of the temporary directory
    returns an error, no line is logged after the removal, and the log
    of the run is the log of a run whose removal succeeds. *)
Lemma removal_error_is_not_logged :
  (@os_RemoveAll env_remove_fails "/tmp/hls1" demo_world).2
    = Some (PathError "unlinkat" "/tmp/hls1" EACCES)
  ∧ log_lines (after_removal
                 (trace (@shutdown_goroutine env_remove_fails demo_handler demo_world)))
    = []
  ∧ log_lines (trace (@shutdown_goroutine env_remove_fails demo_handler demo_world))
    = log_lines (trace (@shutdown_goroutine env_ok demo_handler demo_world)).
Proof. repeat split. Qed.

(** * Further properties *)

(** ** The handlers at their edges *)



(** X6: with a code other than 500 and 404, [handleError] panics on a nil
    error; on an error it answers (with the status line 200 unless
    one was sent before) with an envelope
    whose status text is the code converted as a code point, not its
    decimal digits (two bytes for every code from 128 to 2047), and
    whose detail is the text of the error. *)
Theorem handleError_other_code w code :
  code ≠ StatusInternalServerError → code ≠ StatusNotFound →
  handleError w None code = None
  ∧ (∀ e, ∃ w',
       handleError w (Some e) code = Some w'
       ∧ status w' = Some (default StatusOK (status w))
       ∧ body w' = body w ++
           (if broken w then []
            else [BJSON (VErrors {| server.Errors :=
                    [{| server.Status := string_of_rune code; server.Code := "";
                        server.Title := ""; server.Detail := Error_text e |}] |})]))
  ∧ (128 ≤ code < 2048 → String.length (string_of_rune code) = 2%nat).
Proof.
  intros H500 H404. split; [|split].
  - unfold handleError. rewrite !decide_False by done. reflexivity.
  - intros e.
    destruct (handleError w (Some e) code) as [w'|] eqn:E.
    + exists w'. split; [done|].
      pose proof E as E'. apply handleError_spec in E' as (e' & Hs & _ & _ & Hb & _).
      split; [done|]. rewrite Hb.
      unfold handleError in E. rewrite !decide_False in E by done. simpl in E.
      injection E as E. apply (f_equal body) in E. rewrite Hb in E.
      destruct (Write_spec (BJSON (VErrors {| server.Errors :=
                    [{| server.Status := string_of_rune code; server.Code := "";
                        server.Title := ""; server.Detail := Error_text e |}] |}))
              (WriteHeader StatusOK (Header_Set "Content-Type" "application/json" w)))
        as (_ & _ & _ & Hb2 & _).
      unfold json_Encode in E. rewrite Hb2 in E.
      destruct (WriteHeader_other StatusOK
                  (Header_Set "Content-Type" "application/json" w)) as (_ & Hb3 & Hk3).
      rewrite Hb3, Hk3 in E. simpl in E. by rewrite <- E.
    + unfold handleError in E. rewrite !decide_False in E by done. discriminate.
  - intros [Hlo Hhi]. unfold string_of_rune.
    assert ((code <? 0) = false) as -> by lia.
    assert ((1114111 <? code) = false) as -> by lia.
    assert ((55296 <=? code) = false) as -> by lia.
    assert ((code <? 128) = false) as -> by lia.
    assert ((code <? 2048) = true) as -> by lia.
    reflexivity.
Qed.

Lemma handleError_other_code_witness :
  handleError (newResponseWriter false) None 400 = None
  ∧ String.length (string_of_rune 400) = 2%nat.
Proof.
  destruct (handleError_other_code (newResponseWriter false) 400) as (Hn & _ & Hl).
  - unfold StatusInternalServerError. lia.
  - unfold StatusNotFound. lia.
  - split; [exact Hn | apply Hl; lia].
Defined.

(** X7: [encodeJSON] always returns; it sets the JSON content type, leaves a
    status line already sent and sends 200 otherwise, and adds the
    value to the body, or nothing at all when the connection is broken
    (the error envelope it falls back to cannot be written either). *)
Theorem encodeJSON_reply w v :
  ∃ w', encodeJSON w v = Some w'
    ∧ status w' = Some (default StatusOK (status w))
    ∧ Header w' = <["Content-Type" := "application/json"]> (Header w)
    ∧ body w' = body w ++ (if broken w then [] else [BJSON v]).
Proof.
  destruct (encodeJSON w v) as [w'|] eqn:E.
  - exists w'. split; [done|].
    apply encodeJSON_spec in E as (Hs & Hh & _ & Hb). auto.
  - unfold encodeJSON in E. cbv zeta in E.
    destruct (json_Encode _ _) as [w1 [e|]]; [|discriminate].
    destruct (handleError_total w1 (Some e) StatusInternalServerError) as [w2 Hw2]; auto.
    congruence.
Qed.

(** X8: the queries handed to the services always have exactly the keys
    albumID, artistID and genreID, and two requests that agree on the
    query parameters album-id, artist-id and genre-id get the same
    response from the list handlers, whatever else their queries
    hold. *)
Theorem unknown_query_parameters_ignored h w r r' :
  map_get (URL_Query r) "album-id" = map_get (URL_Query r') "album-id" →
  map_get (URL_Query r) "artist-id" = map_get (URL_Query r') "artist-id" →
  map_get (URL_Query r) "genre-id" = map_get (URL_Query r') "genre-id" →
  dom (parseQueries (URL_Query r)) = {["albumID"; "artistID"; "genreID"]}
  ∧ parseQueries (URL_Query r) = parseQueries (URL_Query r')
  ∧ handleGetSongs h w r = handleGetSongs h w r'
  ∧ handleGetArtists h w r = handleGetArtists h w r'
  ∧ handleGetAlbums h w r = handleGetAlbums h w r'.
Proof.
  intros Ha Hr Hg.
  assert (parseQueries (URL_Query r) = parseQueries (URL_Query r')) as Hq
    by (unfold parseQueries; cbv zeta; by rewrite Ha, Hr, Hg).
  split; [|split; [done|]].
  - unfold parseQueries. cbv zeta. rewrite !dom_insert_L, dom_empty_L. set_solver.
  - unfold handleGetSongs, handleGetArtists, handleGetAlbums, handleNotFound.
    cbv zeta. rewrite Hq. done.
Qed.

Lemma unknown_query_parameters_ignored_witness :
  handleGetSongs demo_handler (newResponseWriter false)
    {| URL_Path := "/songs"; URL_Query := <["sort" := "title"]> ∅; mux_Vars := ∅ |}
  = handleGetSongs demo_handler (newResponseWriter false)
      {| URL_Path := "/songs"; URL_Query := ∅; mux_Vars := ∅ |}.
Proof.
  apply (unknown_query_parameters_ignored demo_handler (newResponseWriter false)
           {| URL_Path := "/songs"; URL_Query := <["sort" := "title"]> ∅; mux_Vars := ∅ |}
           {| URL_Path := "/songs"; URL_Query := ∅; mux_Vars := ∅ |}); reflexivity.
Defined.

(** X9: when the service returns a nil list and no error, the songs and the
    artists handlers answer with the Not Found envelope, while the
    albums and the genres handlers answer with the success envelope
    without data. *)
Theorem list_endpoints_nil_result h r brk :
  (@library.songs (SongService h) (parseQueries (URL_Query r)) = (None, None) →
   handleGetSongs h (newResponseWriter brk) r = Some (not_found_response brk))
  ∧ (@library.artists (ArtistService h) (parseQueries (URL_Query r)) = (None, None) →
     handleGetArtists h (newResponseWriter brk) r = Some (not_found_response brk))
  ∧ (@library.albums (AlbumService h) (parseQueries (URL_Query r)) = (None, None) →
     handleGetAlbums h (newResponseWriter brk) r =
       Some {| Header := <["Content-Type" := "application/json"]> ∅;
               status := Some StatusOK;
               body := if brk then []
                       else [BJSON (VAlbums {| server.AlbumData := None |})];
               broken := brk |})
  ∧ (@library.genres (GenreService h) = (None, None) →
     handleGetGenres h (newResponseWriter brk) r =
       Some {| Header := <["Content-Type" := "application/json"]> ∅;
               status := Some StatusOK;
               body := if brk then []
                       else [BJSON (VGenres {| server.GenreData := None |})];
               broken := brk |}).
Proof.
  split; [|split; [|split]]; intros Hnil;
    unfold handleGetSongs, handleGetArtists, handleGetAlbums, handleGetGenres;
    cbv zeta; rewrite Hnil; destruct brk; reflexivity.
Qed.

Lemma list_endpoints_nil_result_witness :
  handleGetSongs demo_empty_handler (newResponseWriter false)
    {| URL_Path := "/songs"; URL_Query := ∅; mux_Vars := ∅ |}
  = Some (not_found_response false)
  ∧ handleGetAlbums demo_empty_handler (newResponseWriter false)
      {| URL_Path := "/albums"; URL_Query := ∅; mux_Vars := ∅ |}
    = Some {| Header := <["Content-Type" := "application/json"]> ∅;
              status := Some StatusOK;
              body := [BJSON (VAlbums {| server.AlbumData := None |})];
              broken := false |}.
Proof.
  split.
  - apply (list_endpoints_nil_result demo_empty_handler
             {| URL_Path := "/songs"; URL_Query := ∅; mux_Vars := ∅ |} false).
    reflexivity.
  - apply (list_endpoints_nil_result demo_empty_handler
             {| URL_Path := "/albums"; URL_Query := ∅; mux_Vars := ∅ |} false).
    reflexivity.
Defined.

(** X12: when the song lookup returns an error, both stream handlers answer
    with the Internal Server Error envelope and leave the world as it
    was, even if a song came with the error. *)
Theorem stream_lookup_error_is_500 `{env : Env} h r σ brk s e :
  re_match id_pattern (map_get (mux_Vars r) "id") = true →
  @library.song_by_id (SongService h) (map_get (mux_Vars r) "id") = (s, Some e) →
  handleGetStreamPlaylist h (newResponseWriter brk) r σ
    = Some (internal_error_response brk, σ)
  ∧ handleGetStreamSegment h (newResponseWriter brk) r σ
    = Some (internal_error_response brk, σ).
Proof.
  intros Hid%id_pattern_nonempty He.
  unfold handleGetStreamPlaylist, handleGetStreamSegment. cbv zeta.
  rewrite Hid, He. split; destruct brk; reflexivity.
Qed.

Lemma stream_lookup_error_is_500_witness :
  @library.song_by_id (SongService demo_failing_handler) "42"
    = (Some song42, Some demo_db_error)
  ∧ @handleGetStreamPlaylist env_ok demo_failing_handler (newResponseWriter false)
      (demo_request "42") demo_world
    = Some (internal_error_response false, demo_world).
Proof.
  split; [reflexivity|].
  apply (@stream_lookup_error_is_500 env_ok demo_failing_handler (demo_request "42")
           demo_world false (Some song42) demo_db_error); reflexivity.
Defined.

(** X11: when the service it asks returns an error, each of the seven JSON
    handlers answers with the Internal Server Error envelope, the same
    whatever the error says and whatever came with it. *)
Theorem service_error_is_generic_500 h r brk e :
  ((∃ x, @library.songs (SongService h) (parseQueries (URL_Query r)) = (x, Some e)) →
   handleGetSongs h (newResponseWriter brk) r = Some (internal_error_response brk))
  ∧ ((∃ x, @library.artists (ArtistService h) (parseQueries (URL_Query r)) = (x, Some e)) →
     handleGetArtists h (newResponseWriter brk) r = Some (internal_error_response brk))
  ∧ ((∃ x, @library.albums (AlbumService h) (parseQueries (URL_Query r)) = (x, Some e)) →
     handleGetAlbums h (newResponseWriter brk) r = Some (internal_error_response brk))
  ∧ ((∃ x, @library.genres (GenreService h) = (x, Some e)) →
     handleGetGenres h (newResponseWriter brk) r = Some (internal_error_response brk))
  ∧ (re_match id_pattern (map_get (mux_Vars r) "id") = true →
     ((∃ x, @library.song_by_id (SongService h) (map_get (mux_Vars r) "id") = (x, Some e)) →
      handleGetSongByID h (newResponseWriter brk) r = Some (internal_error_response brk))
     ∧ ((∃ x, @library.artist_by_id (ArtistService h) (map_get (mux_Vars r) "id") = (x, Some e)) →
        handleGetArtistByID h (newResponseWriter brk) r = Some (internal_error_response brk))
     ∧ ((∃ x, @library.album_by_id (AlbumService h) (map_get (mux_Vars r) "id") = (x, Some e)) →
        handleGetAlbumByID h (newResponseWriter brk) r = Some (internal_error_response brk))).
Proof.
  split; [|split; [|split; [|split]]].
  5: intros Hid%id_pattern_nonempty; split; [|split].
  all: intros [x Hx];
    unfold handleGetSongs, handleGetArtists, handleGetAlbums, handleGetGenres,
      handleGetSongByID, handleGetArtistByID, handleGetAlbumByID;
    cbv zeta; rewrite ?Hid, Hx; destruct brk; reflexivity.
Qed.

Lemma service_error_is_generic_500_witness :
  handleGetGenres demo_failing_handler (newResponseWriter false) (demo_request "7")
    = Some (internal_error_response false)
  ∧ handleGetAlbumByID demo_failing_handler (newResponseWriter false) (demo_request "7")
    = Some (internal_error_response false).
Proof.
  destruct (service_error_is_generic_500 demo_failing_handler (demo_request "7") false
              demo_db_error) as (_ & _ & _ & Hg & Hid).
  split.
  - apply Hg. eexists. reflexivity.
  - destruct Hid as (_ & _ & Ha); [reflexivity|]. apply Ha. eexists. reflexivity.
Defined.

(** X13: a request without a value for [id] gets nothing written by the
    by-id and the stream handlers: the writer and the world are
    returned as they were. *)
Theorem empty_id_writes_nothing `{env : Env} h w r σ :
  map_get (mux_Vars r) "id" = "" →
  handleGetSongByID h w r = Some w
  ∧ handleGetArtistByID h w r = Some w
  ∧ handleGetAlbumByID h w r = Some w
  ∧ handleGetStreamPlaylist h w r σ = Some (w, σ)
  ∧ handleGetStreamSegment h w r σ = Some (w, σ).
Proof.
  intros H.
  unfold handleGetSongByID, handleGetArtistByID, handleGetAlbumByID,
    handleGetStreamPlaylist, handleGetStreamSegment.
  cbv zeta. rewrite H. repeat split.
Qed.

Lemma empty_id_writes_nothing_witness :
  handleGetSongByID demo_handler (newResponseWriter false)
    {| URL_Path := "/songs/"; URL_Query := ∅; mux_Vars := ∅ |}
  = Some (newResponseWriter false).
Proof.
  apply (@empty_id_writes_nothing env_ok demo_handler (newResponseWriter false)
           {| URL_Path := "/songs/"; URL_Query := ∅; mux_Vars := ∅ |} demo_world).
  reflexivity.
Defined.

(** X14: a segment request for an existing song whose segment file is not
    there is answered by the file server: status line 404 and plain
    text, not the JSON Not Found envelope. *)
Theorem segment_missing_file_is_plain_404 `{env : Env} h r σ brk s :
  re_match id_pattern (map_get (mux_Vars r) "id") = true →
  @library.song_by_id (SongService h) (map_get (mux_Vars r) "id") = (Some s, None) →
  fs σ !! ((TempDir h +:+ "/" +:+ map_get (mux_Vars r) "id")
             +:+ "/" +:+ map_get (mux_Vars r) "seg") = None →
  ∃ w', handleGetStreamSegment h (newResponseWriter brk) r σ
        = Some (w', emit (EvOpen ((TempDir h +:+ "/" +:+ map_get (mux_Vars r) "id")
                                    +:+ "/" +:+ map_get (mux_Vars r) "seg")) σ)
    ∧ status w' = Some StatusNotFound
    ∧ Header w' !! "Content-Type" = Some "text/plain; charset=utf-8"
    ∧ body w' = if brk then [] else [BText "404 page not found"].
Proof.
  intros Hid%id_pattern_nonempty Hs Hf.
  unfold handleGetStreamSegment, serveSegment, http_ServeFile. cbv zeta.
  rewrite Hid, Hs. simpl fs. rewrite Hf.
  eexists. split; [reflexivity|]. destruct brk; repeat split.
Qed.

Lemma segment_missing_file_is_plain_404_witness :
  fs demo_world !! "/tmp/hls1/42/fileSequence0.aac" = None
  ∧ ∃ w', @handleGetStreamSegment env_ok demo_handler (newResponseWriter false)
            (demo_segment_request "42" "fileSequence0.aac") demo_world
          = Some (w', emit (EvOpen "/tmp/hls1/42/fileSequence0.aac") demo_world)
      ∧ status w' = Some StatusNotFound.
Proof.
  split; [reflexivity|].
  destruct (@segment_missing_file_is_plain_404 env_ok demo_handler
              (demo_segment_request "42" "fileSequence0.aac") demo_world false song42)
    as (w' & H & Hs & _); [reflexivity..|].
  exists w'. split; [exact H | exact Hs].
Defined.

(** ** The playlist handler and the world *)

(** X16: a playlist request for an existing song always returns, and does
    exactly this, in this order: it tests for the playlist; if the
    playlist is absent it makes the directory of the song with mode
    0700 and runs mediafilesegmenter -a -f <dir> <file of the song>;
    it opens the playlist. *)
Theorem playlist_request_events `{env : Env} h w r σ s :
  re_match id_pattern (map_get (mux_Vars r) "id") = true →
  @library.song_by_id (SongService h) (map_get (mux_Vars r) "id") = (Some s, None) →
  ∃ w' σ',
    handleGetStreamPlaylist h w r σ = Some (w', σ')
    ∧ trace σ' =
        trace σ ++ [EvStat (playlistPath_of h (map_get (mux_Vars r) "id"))]
          ++ match fs σ !! playlistPath_of h (map_get (mux_Vars r) "id") with
             | Some _ => []
             | None =>
                 [EvMkdir (playlistDir_of h (map_get (mux_Vars r) "id")) 448;
                  EvExec "mediafilesegmenter"
                    ["-a"; "-f"; playlistDir_of h (map_get (mux_Vars r) "id");
                     library.FilePath (library.Attributes s)]]
             end
          ++ [EvOpen (playlistPath_of h (map_get (mux_Vars r) "id"))].
Proof.
  intros Hid%id_pattern_nonempty Hs.
  unfold handleGetStreamPlaylist. cbv zeta. rewrite Hid, Hs.
  eexists _, _. split; [f_equal; apply surjective_pairing|].
  apply servePlaylist_trace.
Qed.

Lemma playlist_request_events_witness :
  ∃ w' σ',
    @handleGetStreamPlaylist env_ok demo_handler (newResponseWriter false)
      (demo_request "42") demo_world = Some (w', σ')
    ∧ trace σ' =
        [EvStat "/tmp/hls1/42/prog_index.m3u8"; EvMkdir "/tmp/hls1/42" 448;
         EvExec "mediafilesegmenter" ["-a"; "-f"; "/tmp/hls1/42"; "/music/42.mp3"];
         EvOpen "/tmp/hls1/42/prog_index.m3u8"].
Proof.
  destruct (@playlist_request_events env_ok demo_handler (newResponseWriter false)
              (demo_request "42") demo_world song42) as (w' & σ' & H & Ht);
    [reflexivity..|].
  exists w', σ'. split; [exact H | exact Ht].
Defined.

(** X17: when the playlist is absent but the directory of the song is there
    already, the failure of [os.Mkdir] is ignored: the segmenter runs
    once, on the filesystem as it was. *)
Theorem existing_song_directory_is_tolerated `{env : Env} h w r songID songPath σ :
  fs σ !! playlistPath_of h songID = None →
  is_Some (fs σ !! playlistDir_of h songID) →
  fs (servePlaylist h w r songID songPath σ).2 =
    (run_command "mediafilesegmenter"
       ["-a"; "-f"; playlistDir_of h songID; songPath] (fs σ)).1
  ∧ count_exec (trace (servePlaylist h w r songID songPath σ).2)
    = (count_exec (trace σ) + 1)%nat.
Proof.
  intros Hpp [n Hn]. split.
  - rewrite servePlaylist_slow, http_ServeFile_world by done. simpl fs.
    rewrite hls_Segment_fs. f_equal. f_equal.
    unfold os_Mkdir. cbv zeta. simpl fs. by rewrite Hn.
  - rewrite servePlaylist_count_exec, Hpp. done.
Qed.

Lemma existing_song_directory_is_tolerated_witness :
  (count_exec
     (trace (@servePlaylist env_no_segmenter demo_handler (newResponseWriter false)
               (demo_request "42") "42" "/music/42.mp3"
               (@servePlaylist env_no_segmenter demo_handler (newResponseWriter false)
                  (demo_request "42") "42" "/music/42.mp3" demo_world).2).2)
   = count_exec
       (trace (@servePlaylist env_no_segmenter demo_handler (newResponseWriter false)
                 (demo_request "42") "42" "/music/42.mp3" demo_world).2) + 1)%nat.
Proof.
  apply (@existing_song_directory_is_tolerated env_no_segmenter demo_handler
           (newResponseWriter false) (demo_request "42") "42" "/music/42.mp3").
  - reflexivity.
  - vm_compute. eauto.
Defined.

(** X15: no handler but the playlist handler changes the filesystem, makes a
    directory or runs a command. *)
Theorem only_playlist_handler_changes_world `{env : Env} f h w r σ w' σ' :
  f ≠ HGetStreamPlaylist →
  call f h w r σ = Some (w', σ') →
  fs σ' = fs σ
  ∧ count_exec (trace σ') = count_exec (trace σ)
  ∧ count_mkdir (trace σ') = count_mkdir (trace σ).
Proof.
  intros Hf H.
  destruct f; try done; cbn [call] in H;
    try (apply bind_Some in H as (w1 & _ & [= _ <-]); done).
  unfold handleGetStreamSegment, serveSegment in H. cbv zeta in H.
  repeat case_match;
    try (apply bind_Some in H as (w1 & _ & [= _ <-]); done).
  - injection H as H. apply (f_equal snd) in H. simpl in H.
    rewrite http_ServeFile_world in H. subst σ'. simpl.
    rewrite count_exec_app, count_mkdir_app. simpl.
    repeat split; unfold count_exec, count_mkdir; simpl; lia.
  - by injection H as _ <-.
Qed.

Lemma only_playlist_handler_changes_world_witness :
  HGetStreamSegment ≠ HGetStreamPlaylist
  ∧ @call env_ok HGetStreamSegment demo_handler (newResponseWriter false)
      (demo_segment_request "42" "fileSequence0.aac") demo_world
    = Some (http_Error "404 page not found" StatusNotFound
              (Header_Set "Content-Type" "audio/aac" (newResponseWriter false)),
            emit (EvOpen "/tmp/hls1/42/fileSequence0.aac") demo_world)
  ∧ fs (emit (EvOpen "/tmp/hls1/42/fileSequence0.aac") demo_world) = fs demo_world.
Proof.
  split; [discriminate|]. split; [reflexivity|].
  destruct (@only_playlist_handler_changes_world env_ok HGetStreamSegment demo_handler
              (newResponseWriter false) (demo_segment_request "42" "fileSequence0.aac")
              demo_world
              (http_Error "404 page not found" StatusNotFound
                 (Header_Set "Content-Type" "audio/aac" (newResponseWriter false)))
              (emit (EvOpen "/tmp/hls1/42/fileSequence0.aac") demo_world))
    as (Hfs & _); [discriminate | reflexivity | exact Hfs].
Defined.

Lemma prepared_step `{env : Env} h r songID songPath c t σ :
  fs σ !! playlistPath_of h songID = Some (File c) →
  prepared_task c t →
  prepared_task c (servePlaylist_step h r songID songPath t σ).1
  ∧ fs (servePlaylist_step h r songID songPath t σ).2 = fs σ
  ∧ count_exec (trace (servePlaylist_step h r songID songPath t σ).2)
    = count_exec (trace σ)
  ∧ count_mkdir (trace (servePlaylist_step h r songID songPath t σ).2)
    = count_mkdir (trace σ).
Proof.
  intros Hpp [[Hpc Hw] | [[Hpc Hw] | [Hpc Hw]]];
    unfold servePlaylist_step; cbv zeta; rewrite Hpc.
  - unfold os_Stat. cbv zeta. simpl fs. rewrite Hpp. simpl.
    rewrite count_exec_app, count_mkdir_app.
    split; [right; left; done|]. repeat split; unfold count_exec, count_mkdir; simpl; lia.
  - pose proof (http_ServeFile_world r
                  (Header_Set "Content-Type" "application/x-mpegURL" (task_w t))
                  (playlistPath_of h songID) σ) as Hworld.
    pose proof (http_ServeFile_file r
                  (Header_Set "Content-Type" "application/x-mpegURL" (task_w t))
                  (playlistPath_of h songID) c σ Hpp) as Hfile.
    destruct (http_ServeFile _ _ _ σ) as [w1 σ1]. simpl in *. subst σ1 w1.
    split; [right; right; split; [done|]; by rewrite Hw|].
    simpl. rewrite count_exec_app, count_mkdir_app.
    repeat split; unfold count_exec, count_mkdir; simpl; lia.
  - simpl. split; [right; right; done|]. done.
Qed.

(** X18: once the playlist of a song is there, requests for it that run at
    the same time, in any order of their steps, never run the
    segmenter, never make a directory and leave the filesystem as it
    was; every request that has returned has received the playlist. *)
Theorem prepared_song_is_served_without_segmenter `{env : Env} h r songID songPath c sched :
  ∀ tasks σ,
    fs σ !! playlistPath_of h songID = Some (File c) →
    Forall (prepared_task c) tasks →
    Forall (prepared_task c) (run_schedule h r songID songPath sched tasks σ).1
    ∧ fs (run_schedule h r songID songPath sched tasks σ).2 = fs σ
    ∧ count_exec (trace (run_schedule h r songID songPath sched tasks σ).2)
      = count_exec (trace σ)
    ∧ count_mkdir (trace (run_schedule h r songID songPath sched tasks σ).2)
      = count_mkdir (trace σ).
Proof.
  induction sched as [|i sched IH]; intros tasks σ Hpp Htasks; simpl; [done|].
  destruct (tasks !! i) as [t|] eqn:E; [|by apply IH].
  assert (prepared_task c t) as Ht by (eapply Forall_lookup_1; eauto).
  destruct (prepared_step h r songID songPath c t σ Hpp Ht) as (Ht' & Hfs & Hce & Hcm).
  destruct (servePlaylist_step _ _ _ _ _ _) as [t' σ']. simpl in *.
  destruct (IH (<[i := t']> tasks) σ') as (I1 & I2 & I3 & I4).
  - by rewrite Hfs.
  - by apply Forall_insert.
  - repeat split; [done | congruence | lia | lia].
Qed.

Lemma prepared_song_is_served_without_segmenter_witness :
  Forall (prepared_task "#EXTM3U fileSequence0.aac")
    (@run_schedule env_ok demo_handler (demo_request "42") "42" "/music/42.mp3"
       [1; 0; 0; 1]%nat (fresh_tasks 2) demo_world_prepared).1
  ∧ count_exec
      (trace (@run_schedule env_ok demo_handler (demo_request "42") "42"
                "/music/42.mp3" [1; 0; 0; 1]%nat (fresh_tasks 2)
                demo_world_prepared).2)
    = count_exec (trace demo_world_prepared).
Proof.
  destruct (@prepared_song_is_served_without_segmenter env_ok demo_handler
              (demo_request "42") "42" "/music/42.mp3" "#EXTM3U fileSequence0.aac"
              [1; 0; 0; 1]%nat (fresh_tasks 2) demo_world_prepared)
    as (H1 & _ & H3 & _).
  - reflexivity.
  - repeat constructor.
  - split; [exact H1 | exact H3].
Defined.

(** ** Start and shutdown of the server *)

(** X19: when the temporary directory cannot be made, [StartServer] logs
    the error and leaves the process with status 1: nothing is served
    and nothing is removed. *)
Theorem StartServer_without_temp_dir `{env : Env} h serving σ d m e :
  make_temp_dir "" "hls" (fs σ) = (d, m, Some e) →
  StartServer h serving σ =
    (h, {| fs := m;
           trace := trace σ ++ [EvTempDir "" "hls"; EvLog (Error_text e); EvExit 1] |}).
Proof.
  intros H. unfold StartServer, setTempDir. cbv zeta. simpl fs. rewrite H.
  unfold Logger_Printf, emit, set_fs. simpl. by rewrite <- !app_assoc.
Qed.

(** X20: the directory that [StartServer] removes, as the last thing before
    the channel is closed, is the one it made at the start; when the
    removal works, neither the directory nor anything beneath it is
    left once [StartServer] returns, whatever was served. *)
Theorem StartServer_removes_its_temp_dir `{env : Env} h serving σ d m :
  make_temp_dir "" "hls" (fs σ) = (d, m, None) →
  (∀ m', remove_all d m' = (remove_tree d m', None)) →
  TempDir (StartServer h serving σ).1 = d
  ∧ (∃ pre, trace (StartServer h serving σ).2 =
       pre ++ [EvLog "HTTP server Shutdown"; EvRemoveAll d; EvClose "idleConnsClosed"])
  ∧ fs (StartServer h serving σ).2 !! d = None
  ∧ (∀ k, has_prefix (d +:+ "/") k = true → fs (StartServer h serving σ).2 !! k = None).
Proof.
  intros H Hrm. unfold StartServer, setTempDir. cbv zeta. simpl fs. rewrite H.
  set (h' := {| TempDir := d; GenreService := _; AlbumService := _;
                ArtistService := _; SongService := _ |}).
  set (σ1 := match ListenAndServe_err with Some _ => _ | None => _ end).
  simpl fst. simpl snd.
  split; [done|].
  unfold shutdown_goroutine, os_RemoveAll. cbv zeta. simpl TempDir. simpl fs.
  rewrite Hrm. simpl.
  split; [|split].
  - destruct Shutdown_err as [e|]; simpl.
    + exists (trace σ1 ++ [EvShutdown; EvLog ("HTTP server Shutdown: " +:+ Error_text e)]).
      by rewrite <- !app_assoc.
    + exists (trace σ1 ++ [EvShutdown]). by rewrite <- !app_assoc.
  - apply map_lookup_filter_None. right. intros x _ Hx. apply Hx. by left.
  - intros k Hk. apply map_lookup_filter_None. right. intros x _ Hx. apply Hx.
    by right.
Qed.

Lemma StartServer_without_temp_dir_witness :
  trace (@StartServer env_no_temp_dir demo_handler (@demo_serving env_no_temp_dir)
           demo_boot_world).2
  = [EvTempDir "" "hls"; EvLog "mkdir /tmp/hls1: permission denied"; EvExit 1].
Proof.
  rewrite (@StartServer_without_temp_dir env_no_temp_dir demo_handler
             (@demo_serving env_no_temp_dir) demo_boot_world ""
             (fs demo_boot_world) (PathError "mkdir" "/tmp/hls1" EACCES));
    reflexivity.
Defined.

Lemma StartServer_removes_its_temp_dir_witness :
  fs (@demo_serving env_ok demo_handler demo_world) !! "/tmp/hls1/42/prog_index.m3u8"
    = Some (File "#EXTM3U fileSequence0.aac")
  ∧ fs (@StartServer env_ok demo_handler (@demo_serving env_ok) demo_boot_world).2
      !! "/tmp/hls1" = None
  ∧ fs (@StartServer env_ok demo_handler (@demo_serving env_ok) demo_boot_world).2
      !! "/tmp/hls1/42/prog_index.m3u8" = None.
Proof.
  split; [reflexivity|].
  destruct (@StartServer_removes_its_temp_dir env_ok demo_handler (@demo_serving env_ok)
              demo_boot_world "/tmp/hls1" (<["/tmp/hls1" := Dir]> (fs demo_boot_world)))
    as (_ & _ & Hd & Hk); [reflexivity | reflexivity |].
  split; [exact Hd | apply Hk; reflexivity].
Defined.

(** ** The router *)

Lemma append_nil_r (s : string) : s +:+ "" = s.
Proof. induction s as [|c s IH]; [done|]. by rewrite append_cons, IH. Qed.

Lemma first_some_Some {A B} (f : A → option B) l y :
  first_some f l = Some y → ∃ x, x ∈ l ∧ f x = Some y.
Proof.
  induction l as [|x l IH]; simpl; [done|].
  destruct (f x) as [y'|] eqn:E.
  - intros [= <-]. exists x. split; [left | done].
  - intros H. destruct (IH H) as (x' & Hin & Hx'). exists x'. split; [by right | done].
Qed.

Lemma strip_prefix_Some p : ∀ s rest, strip_prefix p s = Some rest → s = p +:+ rest.
Proof.
  induction p as [|a p IH]; intros [|b s] rest; simpl; try done.
  - by intros [= <-].
  - by intros [= <-].
  - destruct (Ascii.eqb_spec a b) as [->|]; [|done].
    intros H%IH. rewrite append_cons. by f_equal.
Qed.

Lemma splits_elem s : ∀ a b, (a, b) ∈ splits s → s = a +:+ b.
Proof.
  induction s as [|c s IH]; intros a b; simpl.
  - intros H%list_elem_of_singleton. by injection H as -> ->.
  - intros [H | H%list_elem_of_singleton]%elem_of_app.
    + apply list_elem_of_fmap in H as ([a' b'] & [= -> ->] & Hin).
      simpl. rewrite append_cons. f_equal. by apply IH.
    + by injection H as -> ->.
Qed.

Lemma match_template_lit b l tpl path v v' :
  match_template b (TLit l :: tpl) path v = Some v' →
  ∃ rest, path = l +:+ rest ∧ match_template b tpl rest v = Some v'.
Proof.
  simpl. destruct (strip_prefix l path) as [rest|] eqn:E; [|done].
  intros H. exists rest. split; [by apply strip_prefix_Some | done].
Qed.

Lemma match_template_var b name pat tpl path v v' :
  match_template b (TVar name pat :: tpl) path v = Some v' →
  ∃ s1 s2, path = s1 +:+ s2 ∧ re_match pat s1 = true
           ∧ match_template b tpl s2 (<[name := s1]> v) = Some v'.
Proof.
  simpl. intros ([s1 s2] & Hin & H)%first_some_Some. simpl in H.
  destruct (re_match pat s1) eqn:E; [|done].
  exists s1, s2. split; [by apply splits_elem | done].
Qed.

Lemma match_template_end path v v' :
  match_template false [] path v = Some v' → path = "" ∧ v' = v.
Proof. simpl. destruct path; [|done]. by intros [= <-]. Qed.

Lemma Router_Match_shape path f vars :
  Router_Match path = Some (f, vars) → route_shape f path vars.
Proof.
  unfold Router_Match. intros (rt & Hin & H)%first_some_Some.
  apply bind_Some in H as (v & Hm & [= <- <-]).
  unfold routes in Hin.
  repeat (apply elem_of_cons in Hin as [-> | Hin]); [..|by apply elem_of_nil in Hin];
    cbn [route_handler route_tpl route_prefix route_shape] in *;
    repeat match goal with
    | H : match_template _ (TLit _ :: _) _ _ = Some _ |- _ =>
        apply match_template_lit in H as (? & -> & H)
    | H : match_template _ (TVar _ _ :: _) _ _ = Some _ |- _ =>
        apply match_template_var in H as (? & ? & -> & ? & H)
    | H : match_template false [] _ _ = Some _ |- _ =>
        apply match_template_end in H as [-> ->]
    | H : match_template true [] _ _ = Some _ |- _ =>
        simpl in H; injection H as <-
    end;
    rewrite ?append_nil_r; eauto 10.
Qed.

(** X1: a match of the router fixes the shape of the path: each handler is
    reached only by the paths of its route, the variable [id] is a
    non-empty text of digits matching [[0-9]+], the variable [seg]
    matches the segment pattern, and the path is the literal parts with
    the variables put in; the catch-all is reached only by paths that
    begin with a slash, without variables. *)
Theorem Router_Match_sound path f vars :
  Router_Match path = Some (f, vars) → route_shape f path vars.
Proof. exact (Router_Match_shape path f vars). Qed.

Lemma Router_Match_sound_witness :
  Router_Match "/songs/42/fileSequence7.aac"
    = Some (HGetStreamSegment, <["seg" := "fileSequence7.aac"]> (<["id" := "42"]> ∅))
  ∧ route_shape HGetStreamSegment "/songs/42/fileSequence7.aac"
      (<["seg" := "fileSequence7.aac"]> (<["id" := "42"]> ∅)).
Proof.
  split; [reflexivity|].
  apply (Router_Match_sound "/songs/42/fileSequence7.aac"). reflexivity.
Defined.

Lemma first_some_app {A B} (f : A → option B) l1 l2 :
  first_some f (l1 ++ l2) =
    match first_some f l1 with Some y => Some y | None => first_some f l2 end.
Proof.
  induction l1 as [|x l1 IH]; simpl; [done|]. by destruct (f x).
Qed.

Lemma first_some_None {A B} (f : A → option B) l :
  (∀ x, x ∈ l → f x = None) → first_some f l = None.
Proof.
  induction l as [|x l IH]; intros H; simpl; [done|].
  rewrite (H x) by left. apply IH. intros y Hy. apply H. by right.
Qed.

Lemma splits_head s : ∃ l, splits s = (s, "") :: l.
Proof.
  induction s as [|c s [l IH]]; simpl; [by exists []|].
  rewrite IH. simpl. eauto.
Qed.

Lemma splits_app s1 s2 :
  ∃ l, splits (s1 +:+ s2) = map (λ p, (s1 +:+ p.1, p.2)) (splits s2) ++ l.
Proof.
  induction s1 as [|c s1 [l IH]].
  - exists []. rewrite append_nil_l, app_nil_r.
    induction (splits s2) as [|[a b] l IH]; simpl; [done|]. by rewrite <- IH.
  - rewrite append_cons. simpl. rewrite IH, map_app, map_map.
    eexists. rewrite <- app_assoc. reflexivity.
Qed.

Lemma id_pattern_no_slash s x :
  re_match id_pattern (s +:+ String "/" x) = false.
Proof.
  destruct (re_match id_pattern (s +:+ String "/" x)) eqn:E; [|done].
  apply id_pattern_digits in E. rewrite all_bytes_app in E. simpl in E.
  by rewrite andb_false_r in E.
Qed.

(** Two texts without slash that are followed by a slash in one same
    text are the same. *)
Lemma slash_split_unique a : ∀ b x y,
  all_bytes not_slash a = true → all_bytes not_slash b = true →
  a +:+ String "/" x = b +:+ String "/" y → a = b ∧ x = y.
Proof.
  induction a as [|c a IH]; intros [|d b] x y Ha Hb; simpl in *.
  - rewrite !append_nil_l. by intros [= ->].
  - rewrite append_nil_l, append_cons. intros [= <- _].
    by apply andb_true_iff in Hb as [Hb _].
  - rewrite append_nil_l, append_cons. intros [= -> _].
    by apply andb_true_iff in Ha as [Ha _].
  - rewrite !append_cons. intros [= -> H].
    apply andb_true_iff in Ha as [_ Ha]. apply andb_true_iff in Hb as [_ Hb].
    destruct (IH b x y Ha Hb H) as [-> ->]. done.
Qed.

Lemma id_no_slash s : re_match id_pattern s = true → all_bytes not_slash s = true.
Proof. intros H. by apply digits_no_slash, id_pattern_digits. Qed.

(** The variable [id] before a slash: when the rest of the template
    accepts what follows the digits, the digits are the value taken. *)
Lemma id_var_takes_digits {B} (k : string → string → option B) id x y :
  re_match id_pattern id = true →
  k id (String "/" x) = Some y →
  first_some (λ p : string * string,
                if re_match id_pattern p.1 then k p.1 p.2 else None)
    (splits (id +:+ String "/" x))
  = Some y.
Proof.
  intros Hid Hk.
  destruct (splits_app id (String "/" x)) as [l ->].
  simpl splits. rewrite map_app, <- app_assoc, first_some_app.
  rewrite first_some_None.
  - simpl. rewrite append_nil_r, Hid. by rewrite Hk.
  - intros [a b] Hin. simpl.
    apply list_elem_of_fmap in Hin as ([a' b'] & [= -> ->] & Hin).
    apply list_elem_of_fmap in Hin as ([a'' b''] & [= -> ->] & Hin).
    simpl. by rewrite id_pattern_no_slash.
Qed.

Lemma seg_pattern_begins seg :
  re_match seg_pattern seg = true → ∃ rest, seg = "fileSequence" +:+ rest.
Proof.
  intros H%re_match_sound. unfold seg_pattern in H.
  apply matches_Cat_inv in H as (pre & rest & -> & Hpre%matches_Lit & _).
  subst pre. eauto.
Qed.

(** X2: for every identifier of digits, the path /songs/<id>/stream goes to
    the playlist handler with that identifier, and for every name that
    matches the segment pattern the path /songs/<id>/<name> goes to the
    segment handler with that identifier and that name: no earlier
    route takes these paths. *)
Theorem stream_paths_are_routed id seg :
  re_match id_pattern id = true →
  Router_Match ("/songs/" +:+ id +:+ "/stream")
    = Some (HGetStreamPlaylist, <["id" := id]> ∅)
  ∧ (re_match seg_pattern seg = true →
     Router_Match ("/songs/" +:+ id +:+ "/" +:+ seg)
       = Some (HGetStreamSegment, <["seg" := seg]> (<["id" := id]> ∅))).
Proof.
  intros Hid. split.
  - unfold Router_Match, routes. cbn [first_some route_prefix route_tpl route_handler].
    do 6 (change (match_template _ _ _ _) with (@None (gmap string string)) at 1;
          cbn [mbind option_bind]).
    (* /songs/{id} demands the end of the path after the digits *)
    match goal with |- context [match_template false ?tpl ?p ?v] =>
      assert (match_template false tpl p v = None) as ->
    end.
    { change (first_some
        (λ p : string * string,
           if re_match id_pattern p.1
           then match_template false [] p.2 (<["id" := p.1]> ∅) else None)
        (splits (id +:+ "/stream")) = None).
      apply first_some_None. intros [a b] Hin. simpl.
      destruct (re_match id_pattern a) eqn:Ha; [|done].
      destruct b; [|done]. apply splits_elem in Hin. rewrite append_nil_r in Hin.
      subst a. by rewrite (id_pattern_no_slash id "stream") in Ha. }
    cbn [mbind option_bind].
    match goal with |- context [match_template false ?tpl ?p ?v] =>
      assert (match_template false tpl p v = Some (<["id" := id]> ∅)) as ->
    end.
    { change (first_some
        (λ p : string * string,
           if re_match id_pattern p.1
           then match_template false [TLit "/stream"] p.2 (<["id" := p.1]> ∅)
           else None)
        (splits (id +:+ String "/" "stream")) = Some (<["id" := id]> ∅)).
      by apply (id_var_takes_digits
               (λ a b, match_template false [TLit "/stream"] b (<["id" := a]> ∅))). }
    reflexivity.
  - intros Hseg.
    assert (∃ c seg', seg = String c seg' ∧ c ≠ "s"%char) as (c & seg' & -> & Hc).
    { apply seg_pattern_begins in Hseg as [rest ->].
      exists "f"%char, ("ileSequence" +:+ rest). split; [reflexivity | discriminate]. }
    unfold Router_Match, routes. cbn [first_some route_prefix route_tpl route_handler].
    do 6 (change (match_template _ _ _ _) with (@None (gmap string string)) at 1;
          cbn [mbind option_bind]).
    match goal with |- context [match_template false ?tpl ?p ?v] =>
      assert (match_template false tpl p v = None) as ->
    end.
    { change (first_some
        (λ p : string * string,
           if re_match id_pattern p.1
           then match_template false [] p.2 (<["id" := p.1]> ∅) else None)
        (splits (id +:+ String "/" (String c seg')) ) = None).
      apply first_some_None. intros [a b] Hin. simpl.
      destruct (re_match id_pattern a) eqn:Ha; [|done].
      destruct b; [|done]. apply splits_elem in Hin. rewrite append_nil_r in Hin.
      subst a. by rewrite id_pattern_no_slash in Ha. }
    cbn [mbind option_bind].
    match goal with |- context [match_template false ?tpl ?p ?v] =>
      assert (match_template false tpl p v = None) as ->
    end.
    { change (first_some
        (λ p : string * string,
           if re_match id_pattern p.1
           then match_template false [TLit "/stream"] p.2 (<["id" := p.1]> ∅)
           else None)
        (splits (id +:+ String "/" (String c seg'))) = None).
      apply first_some_None. intros [a b] Hin. cbn [fst snd match_template].
      destruct (re_match id_pattern a) eqn:Ha; [|done].
      destruct (strip_prefix "/stream" b) as [rest|] eqn:Hb; [|done].
      apply strip_prefix_Some in Hb. subst b. apply splits_elem in Hin.
      change ("/stream" +:+ rest) with (String "/" ("stream" +:+ rest)) in Hin.
      apply slash_split_unique in Hin as [_ Hin]; [|by apply id_no_slash..].
      change ("stream" +:+ rest) with (String "s" ("tream" +:+ rest)) in Hin.
      injection Hin as Hin _. by destruct Hc. }
    cbn [mbind option_bind].
    match goal with |- context [match_template false ?tpl ?p ?v] =>
      assert (match_template false tpl p v
              = Some (<["seg" := String c seg']> (<["id" := id]> ∅))) as ->
    end.
    { change (first_some
        (λ p : string * string,
           if re_match id_pattern p.1
           then match_template false [TLit "/"; TVar "seg" seg_pattern] p.2
                  (<["id" := p.1]> ∅)
           else None)
        (splits (id +:+ String "/" (String c seg')))
        = Some (<["seg" := String c seg']> (<["id" := id]> ∅))).
      apply (id_var_takes_digits
               (λ a b, match_template false [TLit "/"; TVar "seg" seg_pattern] b
                         (<["id" := a]> ∅))); [done|].
      change (first_some
        (λ p : string * string,
           if re_match seg_pattern p.1
           then match_template false [] p.2 (<["seg" := p.1]> (<["id" := id]> ∅))
           else None)
        (splits (String c seg'))
        = Some (<["seg" := String c seg']> (<["id" := id]> ∅))).
      destruct (splits_head (String c seg')) as [l ->].
      cbn [first_some fst snd]. by rewrite Hseg. }
    reflexivity.
Qed.


Lemma catch_all_matches path :
  has_prefix "/" path = true →
  match_template true [TLit "/"] path ∅ = Some ∅.
Proof.
  destruct path as [|c path]; [intros [=]|].
  cbn [has_prefix match_template strip_prefix].
  destruct (Ascii.eqb "/" c); [|intros [=]]. intros _. by destruct path.
Qed.

Lemma template_lit_prefix b c l tpl path v v' :
  match_template b (TLit (String c l) :: tpl) path v = Some v' →
  has_prefix (String c "") path = true.
Proof.
  intros (rest & -> & _)%match_template_lit. rewrite append_cons. simpl.
  by rewrite Ascii.eqb_refl.
Qed.



(** X5: when the router sends a path to the segment handler, the path is
    /songs/<id>/<seg> with <id> made of digits and <seg> a name that
    does not begin with a slash and has no element [..]; the request
    leaves the filesystem as it was and opens at most the file
    <TempDir>/<id>/<seg>. *)
Theorem routed_segment_file_is_under_song_dir `{env : Env} h w path q σ vars w' σ' :
  Router_Match path = Some (HGetStreamSegment, vars) →
  Router_ServeHTTP h w path q σ = Some (w', σ') →
  ∃ id seg,
    path = "/songs/" +:+ id +:+ "/" +:+ seg
    ∧ all_bytes is_digit id = true
    ∧ has_prefix "/" seg = false
    ∧ has_dotdot seg = false
    ∧ fs σ' = fs σ
    ∧ (trace σ' = trace σ
       ∨ trace σ' = trace σ ++ [EvOpen ((TempDir h +:+ "/" +:+ id) +:+ "/" +:+ seg)]).
Proof.
  intros Hm H. unfold Router_ServeHTTP in H. rewrite Hm in H.
  apply Router_Match_shape in Hm as (id & seg & -> & Hid & Hseg & ->).
  exists id, seg. split; [done|]. split; [by apply id_pattern_digits|].
  destruct (seg_pattern_no_dotdot seg Hseg) as [Habs Hdd].
  split; [done|]. split; [done|].
  cbn [call] in H. unfold handleGetStreamSegment, serveSegment in H.
  cbv zeta in H. cbn [mux_Vars] in H.
  assert (map_get (<["seg" := seg]> (<["id" := id]> ∅)) "id" = id) as Eid
    by (unfold map_get; by rewrite lookup_insert_ne, lookup_insert_eq).
  assert (map_get (<["seg" := seg]> (<["id" := id]> ∅)) "seg" = seg) as Eseg
    by (unfold map_get; by rewrite lookup_insert_eq).
  rewrite Eid, Eseg in H.
  repeat case_match;
    try (apply bind_Some in H as (w1 & _ & [= _ <-]); auto).
  - injection H as H. apply (f_equal snd) in H. simpl in H.
    rewrite http_ServeFile_world in H. subst σ'. simpl. auto.
  - injection H as _ <-. auto.
Qed.

(** X4: the routes of [ServeHTTP] (before streaming) send every path where
    the routes of [StartServer] send it, except the paths of the two
    stream routes, which they send to the catch-all Not Found. *)
Theorem Router_Match_v0_agrees path :
  Router_Match_v0 path =
    match Router_Match path with
    | Some (HGetStreamPlaylist, _) => Some (HNotFound, ∅)
    | Some (HGetStreamSegment, _) => Some (HNotFound, ∅)
    | o => o
    end.
Proof.
  unfold Router_Match, Router_Match_v0.
  set (f := λ rt : Route,
         vars ← match_template (route_prefix rt) (route_tpl rt) path ∅;
         Some (route_handler rt, vars)).
  change routes with (take 7 routes_v0 ++ drop 7 routes).
  change routes_v0 with (take 7 routes_v0 ++ drop 9 routes) at 1.
  rewrite !first_some_app.
  destruct (first_some f (take 7 routes_v0)) as [[f0 v]|] eqn:E.
  - apply first_some_Some in E as (rt & Hin & Hrt).
    unfold f in Hrt. apply bind_Some in Hrt as (v' & _ & [= <- <-]).
    cbn [take routes_v0] in Hin.
    repeat (apply elem_of_cons in Hin as [-> | Hin]); [..|by apply elem_of_nil in Hin];
      reflexivity.
  - clear E. cbn [drop routes first_some]. unfold f at 1 4.
    cbn [route_prefix route_tpl route_handler].
    destruct (has_prefix "/" path) eqn:Hp.
    + rewrite (catch_all_matches path Hp). cbn [mbind option_bind].
      unfold f. cbn [route_prefix route_tpl route_handler].
      destruct (match_template false _ path ∅) as [v1|]; [reflexivity|].
      cbn [mbind option_bind].
      destruct (match_template false _ path ∅) as [v2|]; reflexivity.
    + assert (∀ l tpl, match_template false (TLit (String "/" l) :: tpl) path ∅ = None)
        as Hnone.
      { intros l tpl. destruct (match_template _ _ _ _) as [v|] eqn:E; [|done].
        apply template_lit_prefix in E. congruence. }
      assert (match_template true [TLit "/"] path ∅ = None) as ->.
      { destruct (match_template _ _ _ _) as [v|] eqn:E; [|done].
        apply template_lit_prefix in E. congruence. }
      unfold f. cbn [route_prefix route_tpl route_handler].
      change "/songs/" with (String "/" "songs/"). by rewrite !Hnone.
Qed.

Lemma stream_paths_are_routed_witness :
  re_match id_pattern "42" = true
  ∧ re_match seg_pattern "fileSequence7.aac" = true
  ∧ Router_Match ("/songs/" +:+ "42" +:+ "/stream")
    = Some (HGetStreamPlaylist, <["id" := "42"]> ∅)
  ∧ Router_Match ("/songs/" +:+ "42" +:+ "/" +:+ "fileSequence7.aac")
    = Some (HGetStreamSegment, <["seg" := "fileSequence7.aac"]> (<["id" := "42"]> ∅)).
Proof.
  split; [reflexivity|]. split; [reflexivity|].
  destruct (stream_paths_are_routed "42" "fileSequence7.aac") as [H1 H2];
    [reflexivity|].
  split; [exact H1 | apply H2; reflexivity].
Defined.

Lemma routed_segment_file_is_under_song_dir_witness :
  Router_Match "/songs/42/fileSequence0/aac"
    = Some (HGetStreamSegment, <["seg" := "fileSequence0/aac"]> (<["id" := "42"]> ∅))
  ∧ ∃ id seg,
      "/songs/42/fileSequence0/aac" = "/songs/" +:+ id +:+ "/" +:+ seg
      ∧ has_dotdot seg = false
      ∧ fs (emit (EvOpen "/tmp/hls1/42/fileSequence0/aac") demo_world) = fs demo_world.
Proof.
  split; [reflexivity|].
  destruct (@routed_segment_file_is_under_song_dir env_ok demo_handler
              (newResponseWriter false) "/songs/42/fileSequence0/aac" ∅ demo_world
              (<["seg" := "fileSequence0/aac"]> (<["id" := "42"]> ∅))
              (http_Error "404 page not found" StatusNotFound
                 (Header_Set "Content-Type" "audio/aac" (newResponseWriter false)))
              (emit (EvOpen "/tmp/hls1/42/fileSequence0/aac") demo_world))
    as (id & seg & Hp & _ & _ & Hdd & Hfs & _); [reflexivity | reflexivity |].
  exists id, seg. split; [exact Hp|]. split; [exact Hdd | exact Hfs].
Defined.

(** ** The by-id handlers on success, and a port that is taken *)

(** X10: when the service finds the resource, a by-id handler answers with
    the success envelope whose data is exactly that one resource. *)
Theorem by_id_handlers_pass_the_resource_through h r brk :
  re_match id_pattern (map_get (mux_Vars r) "id") = true →
  (∀ s, @library.song_by_id (SongService h) (map_get (mux_Vars r) "id") = (Some s, None) →
     handleGetSongByID h (newResponseWriter brk) r =
       Some {| Header := <["Content-Type" := "application/json"]> ∅;
               status := Some StatusOK;
               body := if brk then []
                       else [BJSON (VSongs {| server.SongData := Some [Some s] |})];
               broken := brk |})
  ∧ (∀ a, @library.artist_by_id (ArtistService h) (map_get (mux_Vars r) "id") = (Some a, None) →
     handleGetArtistByID h (newResponseWriter brk) r =
       Some {| Header := <["Content-Type" := "application/json"]> ∅;
               status := Some StatusOK;
               body := if brk then []
                       else [BJSON (VArtists {| server.ArtistData := Some [Some a] |})];
               broken := brk |})
  ∧ (∀ a, @library.album_by_id (AlbumService h) (map_get (mux_Vars r) "id") = (Some a, None) →
     handleGetAlbumByID h (newResponseWriter brk) r =
       Some {| Header := <["Content-Type" := "application/json"]> ∅;
               status := Some StatusOK;
               body := if brk then []
                       else [BJSON (VAlbums {| server.AlbumData := Some [Some a] |})];
               broken := brk |}).
Proof.
  intros Hid%id_pattern_nonempty.
  split; [|split]; intros x Hx;
    unfold handleGetSongByID, handleGetArtistByID, handleGetAlbumByID;
    cbv zeta; rewrite Hid, Hx; destruct brk; reflexivity.
Qed.

Lemma by_id_handlers_pass_the_resource_through_witness :
  re_match id_pattern "42" = true
  ∧ handleGetSongByID demo_handler (newResponseWriter false) (demo_request "42") =
      Some {| Header := <["Content-Type" := "application/json"]> ∅;
              status := Some StatusOK;
              body := [BJSON (VSongs {| server.SongData := Some [Some song42] |})];
              broken := false |}.
Proof.
  split; [reflexivity|].
  destruct (by_id_handlers_pass_the_resource_through demo_handler (demo_request "42")
              false) as (Hs & _); [reflexivity|].
  apply Hs. reflexivity.
Defined.

(** X21: when [ListenAndServe] fails, [StartServer] logs the error, serves
    nothing, and at the interrupt still shuts down and removes the
    temporary directory. *)
Theorem StartServer_listen_failure `{env : Env} h serving σ d m e :
  make_temp_dir "" "hls" (fs σ) = (d, m, None) →
  ListenAndServe_err = Some e →
  trace (StartServer h serving σ).2 =
    trace σ ++ [EvTempDir "" "hls";
                EvLog ("HTTP server ListenAndServe: " +:+ Error_text e);
                EvShutdown]
      ++ match Shutdown_err with
         | Some err => [EvLog ("HTTP server Shutdown: " +:+ Error_text err)]
         | None => []
         end
      ++ [EvLog "HTTP server Shutdown"; EvRemoveAll d; EvClose "idleConnsClosed"]
  ∧ fs (StartServer h serving σ).2 = (remove_all d m).1.
Proof.
  intros H He. unfold StartServer, setTempDir. cbv zeta. simpl fs. rewrite H, He.
  unfold shutdown_goroutine, os_RemoveAll, Logger_Printf. cbv zeta.
  destruct Shutdown_err; simpl; destruct (remove_all d m) as [m' e']; simpl;
    rewrite <- ?app_assoc; auto.
Qed.

Lemma StartServer_listen_failure_witness :
  trace (@StartServer env_listen_fails demo_handler (@demo_serving env_listen_fails)
           demo_boot_world).2
  = [EvTempDir "" "hls";
     EvLog "HTTP server ListenAndServe: listen tcp :8080: bind: address already in use";
     EvShutdown; EvLog "HTTP server Shutdown"; EvRemoveAll "/tmp/hls1";
     EvClose "idleConnsClosed"].
Proof.
  destruct (@StartServer_listen_failure env_listen_fails demo_handler
              (@demo_serving env_listen_fails) demo_boot_world "/tmp/hls1"
              (<["/tmp/hls1" := Dir]> (fs demo_boot_world))
              (ErrorString "listen tcp :8080: bind: address already in use"))
    as [Ht _]; [reflexivity | reflexivity |].
  exact Ht.
Defined.
